(** * organizar.py: classification and move planning by file extension

    A shallow embedding of [src/files-managment/organizar.py].

    - Python [str] is [string].  File names are taken to be ASCII, where
      [str.lower] maps the letters [A-Z] to [a-z] and nothing else; that is
      [Str.lower].  Python's [str.lower] also lower-cases the cased
      characters outside ASCII (the Kelvin sign becomes [k]), so the
      classifier is given with the lower-casing function left open
      ([infer_category_from_extension_by]), and what is stated of arbitrary
      extension strings is stated of that one.
    - A [pathlib.Path] is the list of its components, root first, so
      [p / name] is [p ++ [name]], [p.parent] drops the last component and
      [p.name] is the last component.  [Path.suffix] and [Path.stem] follow
      CPython's [pathlib]: they split the name at its last dot, provided
      that dot is neither the first nor the last character.
    - The file system is an association list from paths to node kinds.  The
      order of the list is the order in which [iterdir] yields entries; a
      directory created later is listed after the entries already there,
      and a moved entry keeps its place.
    - Calls that touch the file system live in a small monad [M]: a call
      returns a value and a file system, raises an exception, or is still
      running.  The [while True] loop of
      [generate_unique_destination_path] takes the number of iterations it
      may run (its fuel); spending all of it is the outcome [Hang].
    - [CATEGORIES] is an insertion-ordered dict, hence an association list;
      [per_category] is a [gmap string nat]. *)

From Stdlib Require Import Ascii String.
From stdpp Require Import base list strings gmap fin_maps pretty.

Local Open Scope string_scope.
Local Open Scope list_scope.
Local Open Scope nat_scope.

(** ** Strings *)

Module Str.

(** [str.lower] on one character. *)
Definition lower_ascii (c : ascii) : ascii :=
  let n := nat_of_ascii c in
  if (65 <=? n) && (n <=? 90) then ascii_of_nat (n + 32) else c.

(** [s.lower()] on ASCII text: the letters [A-Z] become [a-z], every other
    character is kept. *)
Fixpoint lower (s : string) : string :=
  match s with
  | EmptyString => EmptyString
  | String c s' => String (lower_ascii c) (lower s')
  end.

(** [s.startswith(".")] *)
Definition startswith_dot (s : string) : bool :=
  match s with
  | String c _ => bool_decide (c = "."%char)
  | EmptyString => false
  end.

(** [s.rfind(c)]: the index of the last occurrence of [c]; Python's [-1]
    is [None]. *)
Fixpoint rfind (c : ascii) (s : string) : option nat :=
  match s with
  | EmptyString => None
  | String a s' =>
      match rfind c s' with
      | Some i => Some (S i)
      | None => if bool_decide (a = c) then Some 0 else None
      end
  end.

(** [s[i:]] *)
Fixpoint drop (i : nat) (s : string) : string :=
  match i, s with
  | 0, _ => s
  | S _, EmptyString => EmptyString
  | S i', String _ s' => drop i' s'
  end.

(** [s[:i]] *)
Fixpoint take (i : nat) (s : string) : string :=
  match i, s with
  | 0, _ => EmptyString
  | S _, EmptyString => EmptyString
  | S i', String a s' => String a (take i' s')
  end.

End Str.

(** ** Paths *)

Definition path := list string.

(** [p.name] *)
Definition name (p : path) : string := List.last p "".

(** [p.parent]; the parent of the root is the root. *)
Definition parent (p : path) : path := removelast p.

(** [p / child] *)
Definition joinpath (p : path) (child : string) : path := p ++ [child].

Infix "</>" := joinpath (at level 40, left associativity).

(** The index [i] of the last dot of a file name when
    [0 < i < len(name) - 1], as tested by [Path.suffix] and [Path.stem]. *)
Definition suffix_index (nm : string) : option nat :=
  match Str.rfind "."%char nm with
  | Some i =>
      if (0 <? i) && (i <? String.length nm - 1) then Some i else None
  | None => None
  end.

(** [p.suffix] *)
Definition suffix (p : path) : string :=
  match suffix_index (name p) with
  | Some i => Str.drop i (name p)
  | None => ""
  end.

(** [p.stem] *)
Definition stem (p : path) : string :=
  match suffix_index (name p) with
  | Some i => Str.take i (name p)
  | None => name p
  end.

(** ** Category rules *)

Definition CATEGORIES : list (string * list string) :=
  [ ("Imagenes",
      [".png"; ".jpg"; ".jpeg"; ".gif"; ".bmp"; ".tiff"; ".webp"; ".svg";
       ".heic"; ".avif"]);
    ("Documentos",
      [".pdf"; ".doc"; ".docx"; ".txt"; ".rtf"; ".md"; ".xls"; ".xlsx";
       ".ppt"; ".pptx"; ".csv"; ".odt"; ".ods"; ".odp"]);
    ("Videos",
      [".mp4"; ".mkv"; ".mov"; ".avi"; ".wmv"; ".flv"; ".webm"; ".m4v"]);
    ("Audio",
      [".mp3"; ".wav"; ".flac"; ".aac"; ".ogg"; ".m4a"; ".wma"]);
    ("Comprimidos",
      [".zip"; ".rar"; ".7z"; ".tar"; ".gz"; ".bz2"; ".xz"; ".tar.gz";
       ".tar.bz2"; ".tar.xz"]);
    ("Instaladores",
      [".exe"; ".msi"; ".pkg"; ".dmg"]);
    ("Codigo",
      [".py"; ".ipynb"; ".js"; ".ts"; ".tsx"; ".jsx"; ".java"; ".c"; ".h";
       ".cpp"; ".hpp"; ".cs"; ".rb"; ".go"; ".php"; ".sh"; ".bat"; ".ps1";
       ".html"; ".css"; ".scss"; ".json"; ".yml"; ".yaml"; ".xml"; ".toml";
       ".ini"; ".cfg"]) ].

Definition DEFAULT_OTHER_CATEGORY : string := "Otros".

(** The [for category_name, extensions in items] loop of
    [infer_category_from_extension]: the first category whose list holds
    the extension, else the default. *)
Fixpoint first_category (lower_extension : string)
    (items : list (string * list string)) : string :=
  match items with
  | [] => DEFAULT_OTHER_CATEGORY
  | (category_name, extensions) :: rest =>
      if bool_decide (lower_extension ∈ extensions) then category_name
      else first_category lower_extension rest
  end.

Section classifier.
(** [str.lower], whatever it does to its argument. *)
Variable str_lower : string → string.

(** [infer_category_from_extension], with [extension.lower()] computed by
    [str_lower]. *)
Definition infer_category_from_extension_by (extension : string) : string :=
  let lower_extension := str_lower extension in
  first_category lower_extension CATEGORIES.
End classifier.

(** [infer_category_from_extension] on ASCII text. *)
Definition infer_category_from_extension (extension : string) : string :=
  infer_category_from_extension_by Str.lower extension.

(** ** The file system *)

Inductive kind := File | Dir.

Global Instance kind_eq_dec : EqDecision kind.
Proof. solve_decision. Defined.

(** Every node is listed with its full path, the starting directory
    included; nothing exists implicitly. *)
Definition filesystem := list (path * kind).

Inductive exn :=
  | ValueError
  | FileExistsError
  | FileNotFoundError
  | NotADirectoryError
  | ShutilError.  (* shutil.Error *)

Global Instance exn_eq_dec : EqDecision exn.
Proof. solve_decision. Defined.

(** What a call does to the file system: it returns, it raises (the file
    system is the one at the time of the exception), or its loop is still
    running when the fuel is spent. *)
Inductive result (A : Type) :=
  | Ok (a : A) (fs : filesystem)
  | Raise (e : exn) (fs : filesystem)
  | Hang.
Arguments Ok {A} a fs.
Arguments Raise {A} e fs.
Arguments Hang {A}.

Definition M (A : Type) : Type := filesystem → result A.

Definition ret {A} (a : A) : M A := λ fs, Ok a fs.

Definition bind {A B} (m : M A) (k : A → M B) : M B := λ fs,
  match m fs with
  | Ok a fs' => k a fs'
  | Raise e fs' => Raise e fs'
  | Hang => Hang
  end.

Notation "'let*' x := m 'in' k" := (bind m (λ x, k))
  (at level 10, x pattern, m at level 100, k at level 200, only parsing).

(** [os.stat]: the first entry listed for the path. *)
Fixpoint stat (fs : filesystem) (p : path) : option kind :=
  match fs with
  | [] => None
  | (q, k) :: rest => if bool_decide (q = p) then Some k else stat rest p
  end.

(** [p.exists()] *)
Definition path_exists (fs : filesystem) (p : path) : bool :=
  match stat fs p with Some _ => true | None => false end.

(** [p.is_dir()] *)
Definition is_dir (fs : filesystem) (p : path) : bool :=
  match stat fs p with Some Dir => true | _ => false end.

(** [d.iterdir()]: the children of [d], in listing order. *)
Definition iterdir (fs : filesystem) (d : path) : list path :=
  filter (λ p, p ≠ [] ∧ parent p = d) fs.*1.

(** [os.mkdir(p)] *)
Definition os_mkdir (p : path) : M unit := λ fs,
  if path_exists fs p then Raise FileExistsError fs
  else if negb (path_exists fs (parent p)) then Raise FileNotFoundError fs
  else if negb (is_dir fs (parent p)) then Raise NotADirectoryError fs
  else Ok () (fs ++ [(p, Dir)]).

(** [p.mkdir(parents=False, exist_ok=True)] *)
Definition mkdir_exist_ok (p : path) : M unit := λ fs,
  match os_mkdir p fs with
  | Raise FileNotFoundError fs' => Raise FileNotFoundError fs'
  | Raise e fs' => if is_dir fs' p then Ok () fs' else Raise e fs'
  | r => r
  end.

(** [p.mkdir(parents=True, exist_ok=True)]; the recursion on [p.parent]
    is on the number of components of [p]. *)
Fixpoint mkdir_parents (depth : nat) (p : path) : M unit := λ fs,
  match os_mkdir p fs with
  | Raise FileNotFoundError fs' =>
      if bool_decide (parent p = p) then Raise FileNotFoundError fs'
      else
        match depth with
        | 0 => Raise FileNotFoundError fs'
        | S depth' =>
            (let* _ := mkdir_parents depth' (parent p) in mkdir_exist_ok p) fs'
        end
  | Raise e fs' => if is_dir fs' p then Ok () fs' else Raise e fs'
  | r => r
  end.

Definition Path_mkdir (p : path) : M unit := mkdir_parents (length p) p.

Definition ensure_directory (p : path) : M unit := λ fs,
  if negb (path_exists fs p) then Path_mkdir p fs else Ok () fs.

(** ** Destination resolver *)

Section resolver.
(** The existence test the resolver consults, [Path.exists]. *)
Variable path_exists_now : path → bool.

(** [parent / f"{stem} ({counter}){suffix}"] *)
Definition candidate (destination : path) (counter : nat) : path :=
  parent destination
    </> (stem destination +:+ " (" +:+ pretty counter +:+ ")"
         +:+ suffix destination).

(** The [while True] loop, run for at most [fuel] iterations; [None]
    when the loop has not returned by then. *)
Fixpoint unique_loop (fuel : nat) (destination : path) (counter : nat)
    : option path :=
  match fuel with
  | 0 => None
  | S fuel' =>
      let c := candidate destination counter in
      if negb (path_exists_now c) then Some c
      else unique_loop fuel' destination (S counter)
  end.

Definition generate_unique_destination_path (fuel : nat)
    (destination : path) : option path :=
  if negb (path_exists_now destination) then Some destination
  else unique_loop fuel destination 1.
End resolver.

(** The resolver reading the current file system. *)
Definition resolve (fuel : nat) (destination : path) : M path := λ fs,
  match generate_unique_destination_path (path_exists fs) fuel destination with
  | Some unique_destination => Ok unique_destination fs
  | None => Hang
  end.

(** ** Plan builder *)

Record MovePlan := {
  source : path;
  destination : path;
  category : string;
}.

Global Instance MovePlan_eq_dec : EqDecision MovePlan.
Proof. solve_decision. Defined.

Definition is_hidden_file (p : path) : bool := Str.startswith_dot (name p).

(** [child.suffix.lower()] *)
Definition file_extension (child : path) : string := Str.lower (suffix child).

(** The plan item appended for an included child. *)
Definition plan_child (directory child : path) : MovePlan :=
  let category := infer_category_from_extension (file_extension child) in
  let destination_dir := directory </> category in
  let destination := destination_dir </> name child in
  {| source := child; destination := destination; category := category |}.

(** The [for child in directory.iterdir()] loop. *)
Fixpoint plan_children (fs : filesystem) (directory : path)
    (include_hidden : bool) (children : list path) : list MovePlan :=
  match children with
  | [] => []
  | child :: rest =>
      if is_dir fs child then
        plan_children fs directory include_hidden rest
      else if negb include_hidden && is_hidden_file child then
        plan_children fs directory include_hidden rest
      else
        plan_child directory child
          :: plan_children fs directory include_hidden rest
  end.

Definition build_move_plan_for_directory (fs : filesystem) (directory : path)
    (include_hidden : bool) : exn + list MovePlan :=
  if negb (path_exists fs directory) || negb (is_dir fs directory)
  then inl ValueError
  else inr (plan_children fs directory include_hidden (iterdir fs directory)).

(** ** Executor *)

(** The entries of [fs] after [src] has been renamed to [dst]: a file
    listed at [dst] is replaced, and [src] with everything below it is
    re-rooted at [dst], keeping its place in the listing. *)
Definition relocate (src dst : path) (fs : filesystem) : filesystem :=
  if bool_decide (src = dst) then fs
  else
    (λ e : path * kind,
       if bool_decide (src `prefix_of` e.1)
       then (dst ++ drop (length src) e.1, e.2) else e)
    <$> filter (λ e : path * kind, e.1 ≠ dst) fs.

(** [shutil.move(src, dst)] on one device: [os.rename] where it applies,
    otherwise the outcome of the copy-and-delete fallback (which, for a
    directory, creates the missing parents of the destination). *)
Definition shutil_move (src dst : path) : M unit := λ fs,
  if is_dir fs dst && bool_decide (src = dst) then Ok () fs
  else
    let real_dst := if is_dir fs dst then dst </> name src else dst in
    if is_dir fs dst && path_exists fs real_dst then Raise ShutilError fs
    else
      match stat fs src with
      | None => Raise FileNotFoundError fs
      | Some File =>
          if is_dir fs (parent real_dst) then Ok () (relocate src real_dst fs)
          else if path_exists fs (parent real_dst)
               then Raise NotADirectoryError fs
               else Raise FileNotFoundError fs
      | Some Dir =>
          if bool_decide (src `prefix_of` real_dst) then Raise ShutilError fs
          else if path_exists fs real_dst then Raise FileExistsError fs
          else if is_dir fs (parent real_dst)
               then Ok () (relocate src real_dst fs)
               else if path_exists fs (parent real_dst)
                    then Raise NotADirectoryError fs
                    else
                      (let* _ := Path_mkdir (parent real_dst) in
                       λ fs', Ok () (relocate src real_dst fs')) fs
      end.

(** A line printed by the dry run:
    [DRY-RUN: ... '{source.name}' -> '{destination.parent.name}/{unique.name}'] *)
Record message := DryRunLine {
  line_source : string;
  line_directory : string;
  line_name : string;
}.

Definition counters : Type := nat * gmap string nat.

(** The [for plan in plans] loop, from the current values of
    [moved_count] and [per_category] and the lines printed so far. *)
Fixpoint apply_loop (fuel : nat) (dry_run : bool) (plans : list MovePlan)
    (moved_count : nat) (per_category : gmap string nat)
    (stdout : list message) : M (counters * list message) :=
  match plans with
  | [] => ret ((moved_count, per_category), stdout)
  | plan :: rest =>
      let* _ := ensure_directory (parent (destination plan)) in
      let* unique_destination := resolve fuel (destination plan) in
      if dry_run then
        apply_loop fuel dry_run rest moved_count per_category
          (stdout ++ [DryRunLine (name (source plan))
                        (name (parent (destination plan)))
                        (name unique_destination)])
      else
        let* _ := shutil_move (source plan) unique_destination in
        apply_loop fuel dry_run rest (moved_count + 1)
          (<[category plan :=
               default 0 (per_category !! category plan) + 1]> per_category)
          stdout
  end.

Definition apply_move_plan (fuel : nat) (plans : list MovePlan)
    (dry_run : bool) : M (counters * list message) :=
  apply_loop fuel dry_run plans 0 ∅ [].

(** What [main] does once the arguments are parsed: it builds the plan and
    applies it.  The lines [main] prints itself (the target, the dry-run
    notice, the summary) are left out; the value is the pair returned by
    [apply_move_plan], which [main] goes on to print, and the lines are
    those printed by [apply_move_plan]. *)
Definition main (fuel : nat) (target_dir : path) (dry_run include_hidden : bool)
    : M (counters * list message) := λ fs,
  match build_move_plan_for_directory fs target_dir include_hidden with
  | inl e => Raise e fs
  | inr plans => apply_move_plan fuel plans dry_run fs
  end.

(** The sum of the per-category counts. *)
Definition total (per_category : gmap string nat) : nat :=
  map_fold (λ _ count acc, count + acc) 0 per_category.

(** ** Specification predicates *)

(** [fs'] lists the entries of [fs] in the same order, followed by new
    directories only. *)
Definition grows (fs fs' : filesystem) : Prop :=
  ∃ extra, fs' = fs ++ extra ∧
           Forall (λ e : path * kind, e.2 = Dir ∧ stat fs e.1 = None) extra.

(** The call returned or raised, and the file system only grew. *)
Definition settles {A} (fs : filesystem) (r : result A) : Prop :=
  match r with
  | Ok _ fs' | Raise _ fs' => grows fs fs'
  | Hang => False
  end.

(** ** Sample directories *)

Definition downloads : path := ["home"; "Downloads"].

Definition sample_fs : filesystem :=
  [ ([], Dir); (["home"], Dir); (downloads, Dir);
    (downloads </> "photo.png", File);
    (downloads </> "notes.txt", File);
    (downloads </> "archive.tar.gz", File);
    (downloads </> "script.py", File);
    (downloads </> "unknownfile.xyz", File) ].

Definition sample_plans : list MovePlan :=
  plan_child downloads <$>
    [ downloads </> "photo.png"; downloads </> "notes.txt";
      downloads </> "archive.tar.gz"; downloads </> "script.py";
      downloads </> "unknownfile.xyz" ].

(** A plan item whose destination lies below the file [photo.png]. *)
Definition stray_plan : MovePlan :=
  {| source := downloads </> "notes.txt";
     destination := downloads </> "photo.png" </> "sub" </> "notes.txt";
     category := "Documentos" |}.

Definition documents : path := downloads </> "Documentos".

Definition collision_fs : filesystem :=
  [ ([], Dir); (["home"], Dir); (downloads, Dir); (documents, Dir);
    (documents </> "report.pdf", File);
    (downloads </> "report.pdf", File);
    (["home"; "inbox"], Dir);
    (["home"; "inbox"; "report.pdf"], File) ].

(** [collision_fs] after the live run on [Downloads]. *)
Definition collision_fs_organized : filesystem :=
  [ ([], Dir); (["home"], Dir); (downloads, Dir); (documents, Dir);
    (documents </> "report.pdf", File);
    (documents </> "report (1).pdf", File);
    (["home"; "inbox"], Dir);
    (["home"; "inbox"; "report.pdf"], File) ].

Definition collision_plans : list MovePlan :=
  [ {| source := downloads </> "report.pdf";
       destination := documents </> "report.pdf";
       category := "Documentos" |};
    {| source := ["home"; "inbox"; "report.pdf"];
       destination := documents </> "report.pdf";
       category := "Documentos" |} ].

(** The counts and the file system after the live run of the sample. *)
Definition sample_counts : gmap string nat :=
  {[ "Imagenes" := 1; "Documentos" := 1; "Comprimidos" := 1; "Codigo" := 1;
     "Otros" := 1 ]}.

Definition sample_fs_organized : filesystem :=
  [ ([], Dir); (["home"], Dir); (downloads, Dir);
    (downloads </> "Imagenes" </> "photo.png", File);
    (downloads </> "Documentos" </> "notes.txt", File);
    (downloads </> "Comprimidos" </> "archive.tar.gz", File);
    (downloads </> "Codigo" </> "script.py", File);
    (downloads </> "Otros" </> "unknownfile.xyz", File);
    (downloads </> "Imagenes", Dir);
    (downloads </> "Documentos", Dir);
    (downloads </> "Comprimidos", Dir);
    (downloads </> "Codigo", Dir);
    (downloads </> "Otros", Dir) ].

(** ** Derived notions *)

(** The children the plan loop does not skip. *)
Definition is_included (fs : filesystem) (include_hidden : bool)
    (child : path) : bool :=
  negb (is_dir fs child) && negb (negb include_hidden && is_hidden_file child).

(** The number of files listed. *)
Definition file_count (fs : filesystem) : nat :=
  length (filter (λ k, k = File) fs.*2).

(** The number of plan items of a category. *)
Definition planned_in (c : string) (plans : list MovePlan) : nat :=
  length (filter (λ plan, category plan = c) plans).

(** What the executor needs of a plan item of the directory [d]. *)
Definition shaped (d : path) (plan : MovePlan) : Prop :=
  source plan ≠ [] ∧ parent (source plan) = d ∧
  ∃ c, parent (destination plan) = d </> c.

(** The line a dry run prints for an item while the file system is [fs]. *)
Definition preview (fs : filesystem) (fuel : nat) (plan : MovePlan) : message :=
  DryRunLine (name (source plan)) (name (parent (destination plan)))
    (name (default (destination plan)
             (generate_unique_destination_path (path_exists fs) fuel
                (destination plan)))).

(** A directory with hidden files and a subdirectory. *)
Definition hidden_fs : filesystem :=
  [ ([], Dir); (["home"], Dir); (downloads, Dir);
    (downloads </> ".env", File);
    (downloads </> "notes.txt", File);
    (downloads </> ".zip", File);
    (downloads </> "old", Dir);
    (downloads </> "old" </> "a.txt", File) ].

(** A directory holding a file named as a category. *)
Definition clash_fs : filesystem :=
  [ ([], Dir); (["home"], Dir); (downloads, Dir);
    (downloads </> "notes.txt", File);
    (downloads </> "Documentos", File) ].

(** ** Facts about strings and paths *)

Lemma lower_ascii_idemp c : Str.lower_ascii (Str.lower_ascii c) = Str.lower_ascii c.
Proof. by destruct c as [[] [] [] [] [] [] [] []]. Qed.

Lemma lower_idemp s : Str.lower (Str.lower s) = Str.lower s.
Proof.
  induction s as [|c s IH]; simpl; [done|].
  by rewrite lower_ascii_idemp, IH.
Qed.

Section string_facts.
Implicit Types s t : string.

Lemma string_app_length s t :
  String.length (s +:+ t) = String.length s + String.length t.
Proof. induction s as [|c s IH]; simpl; [done|by rewrite IH]. Qed.

Lemma string_app_inv_tail s1 s2 t : s1 +:+ t = s2 +:+ t → s1 = s2.
Proof.
  revert s2. induction s1 as [|a s1 IH]; intros [|b s2] Heq.
  - done.
  - apply (f_equal String.length) in Heq.
    rewrite !string_app_length in Heq. simpl in Heq. lia.
  - apply (f_equal String.length) in Heq.
    rewrite !string_app_length in Heq. simpl in Heq. lia.
  - change (String a (s1 +:+ t) = String b (s2 +:+ t)) in Heq.
    injection Heq as -> Heq. f_equal. by apply IH.
Qed.

Lemma lower_ascii_dot c : Str.lower_ascii c = "."%char ↔ c = "."%char.
Proof. destruct c as [[] [] [] [] [] [] [] []]; by vm_compute. Qed.

Lemma rfind_lower s : Str.rfind "." (Str.lower s) = Str.rfind "." s.
Proof.
  induction s as [|c s IH]; simpl; [done|]. rewrite IH.
  destruct (Str.rfind "." s); [done|].
  destruct (decide (c = "."%char)) as [->|Hc]; [done|].
  rewrite !bool_decide_eq_false_2; [done..|].
  by rewrite lower_ascii_dot.
Qed.

Lemma rfind_drop c s i :
  Str.rfind c s = Some i → Str.rfind c (Str.drop i s) = Some 0.
Proof.
  revert i. induction s as [|a s IH]; intros i; simpl; [done|].
  destruct (Str.rfind c s) as [j|] eqn:Hj.
  - intros [= <-]. simpl. by apply IH.
  - case_bool_decide; [|done]. intros [= <-]. simpl.
    by rewrite Hj, bool_decide_eq_true_2.
Qed.
End string_facts.

Lemma name_joinpath d nm : name (d </> nm) = nm.
Proof. unfold name, joinpath. apply last_last. Qed.

Lemma parent_joinpath d nm : parent (d </> nm) = d.
Proof. unfold parent, joinpath. apply removelast_last. Qed.

Lemma joinpath_nonempty d nm : d </> nm ≠ [].
Proof. unfold joinpath. by destruct d. Qed.

(** A non-empty suffix starts at the last dot of the name, so it holds one
    dot only. *)
Lemma suffix_one_dot p : suffix p = "" ∨ Str.rfind "." (suffix p) = Some 0.
Proof.
  unfold suffix, suffix_index.
  destruct (Str.rfind "." (name p)) as [i|] eqn:Hi; [|by left].
  destruct (_ && _); [|by left]. right. by apply rfind_drop.
Qed.

Lemma file_extension_one_dot child :
  file_extension child = "" ∨ Str.rfind "." (file_extension child) = Some 0.
Proof.
  unfold file_extension. rewrite rfind_lower.
  destruct (suffix_one_dot child) as [->|?]; [by left|by right].
Qed.

Section more_string_facts.
Implicit Types s t : string.

Lemma string_app_nil t : "" +:+ t = t.
Proof. done. Qed.

Lemma string_app_cons a s t : String a s +:+ t = String a (s +:+ t).
Proof. done. Qed.

Lemma string_app_assoc s t u : (s +:+ t) +:+ u = s +:+ (t +:+ u).
Proof.
  induction s as [|a s IH]; [done|].
  by rewrite !string_app_cons, IH.
Qed.

Lemma rfind_app c s t :
  Str.rfind c (s +:+ t)
  = match Str.rfind c t with
    | Some i => Some (String.length s + i)
    | None => Str.rfind c s
    end.
Proof.
  induction s as [|a s IH].
  { rewrite string_app_nil. by destruct (Str.rfind c t). }
  rewrite string_app_cons. simpl. rewrite IH.
  by destruct (Str.rfind c t).
Qed.

Lemma str_take_drop i s : Str.take i s +:+ Str.drop i s = s.
Proof.
  revert s. induction i as [|i IH]; intros [|a s]; simpl; try done.
  by rewrite string_app_cons, IH.
Qed.

Lemma str_drop_app s t : Str.drop (String.length s) (s +:+ t) = t.
Proof. induction s as [|a s IH]; [by destruct t|done]. Qed.

Lemma str_take_app s t : Str.take (String.length s) (s +:+ t) = s.
Proof.
  induction s as [|a s IH]; [by destruct t|].
  rewrite string_app_cons. simpl. by rewrite IH.
Qed.

Lemma str_drop_length i s :
  String.length (Str.drop i s) = String.length s - i.
Proof. revert s. induction i as [|i IH]; intros [|a s]; simpl; auto. Qed.

Lemma rfind_lt c s i : Str.rfind c s = Some i → i < String.length s.
Proof.
  revert i. induction s as [|a s IH]; intros i; simpl; [done|].
  destruct (Str.rfind c s) as [j|].
  - intros [= <-]. specialize (IH j eq_refl). lia.
  - case_bool_decide; [|done]. intros [= <-]. lia.
Qed.
End more_string_facts.

Lemma suffix_index_Some nm i :
  suffix_index nm = Some i ↔
  Str.rfind "." nm = Some i ∧ 0 < i < String.length nm - 1.
Proof.
  unfold suffix_index. destruct (Str.rfind "." nm) as [j|];
    [|by split; [|intros [[=] _]]].
  destruct (0 <? j) eqn:H0; destruct (j <? String.length nm - 1) eqn:H1;
    simpl; rewrite ?Nat.ltb_lt, ?Nat.ltb_ge in *;
    (split; [intros [= <-]; split; [done|lia] | intros [[= <-] ?]; f_equal; lia])
    || (split; [done|intros [[= <-] ?]; lia]).
Qed.

Lemma str_drop_app_plus s t i :
  Str.drop (String.length s + i) (s +:+ t) = Str.drop i t.
Proof. induction s as [|a s IH]; [done|]. by rewrite string_app_cons. Qed.

(** ** Facts about the category table *)

Lemma first_category_hit x items cat exts :
  NoDup (mjoin items.*2) →
  (cat, exts) ∈ items → x ∈ exts →
  first_category x items = cat.
Proof.
  induction items as [|[c es] items IH]; simpl; intros Hnd Hin Hx.
  - by apply elem_of_nil in Hin.
  - apply NoDup_app in Hnd as (_ & Hdisj & Hnd).
    apply elem_of_cons in Hin as [[= -> ->]|Hin].
    + by rewrite bool_decide_eq_true_2.
    + rewrite bool_decide_eq_false_2; [by apply IH|].
      intros Hes. apply (Hdisj x Hes).
      apply list_elem_of_join. exists exts. split; [done|].
      apply list_elem_of_fmap. by exists (cat, exts).
Qed.

Lemma first_category_miss x items :
  (∀ cat exts, (cat, exts) ∈ items → x ∉ exts) →
  first_category x items = DEFAULT_OTHER_CATEGORY.
Proof.
  induction items as [|[c es] items IH]; simpl; intros Hmiss; [done|].
  rewrite bool_decide_eq_false_2.
  - apply IH. intros cat exts Hin. apply (Hmiss cat). by right.
  - apply (Hmiss c). by left.
Qed.

Lemma CATEGORIES_disjoint : NoDup (mjoin CATEGORIES.*2).
Proof. apply (bool_decide_unpack _). by vm_compute. Qed.

Lemma CATEGORIES_lower cat exts x :
  (cat, exts) ∈ CATEGORIES → x ∈ exts → Str.lower x = x.
Proof.
  intros Hin Hx.
  assert (Forall (λ e, Str.lower e = e) (mjoin CATEGORIES.*2)) as Hall.
  { apply (bool_decide_unpack _). by vm_compute. }
  rewrite Forall_forall in Hall. apply Hall.
  apply list_elem_of_join. exists exts. split; [done|].
  apply list_elem_of_fmap. by exists (cat, exts).
Qed.

(** ** Facts about the resolver *)

Section resolver_facts.
Variable path_exists_now : path → bool.
Implicit Types destination r : path.

Lemma candidate_inj destination j k :
  candidate destination j = candidate destination k → j = k.
Proof.
  unfold candidate, joinpath. intros Heq.
  apply app_inv_head in Heq. injection Heq as Heq.
  apply (inj (String.app _)), (inj (String.app _)) in Heq.
  apply string_app_inv_tail in Heq. by apply (inj pretty) in Heq.
Qed.

Lemma unique_loop_Some fuel destination counter r :
  unique_loop path_exists_now fuel destination counter = Some r →
  ∃ k, k < fuel ∧ r = candidate destination (counter + k) ∧
       path_exists_now r = false ∧
       ∀ j, j < k →
         path_exists_now (candidate destination (counter + j)) = true.
Proof.
  revert counter.
  induction fuel as [|fuel IH]; intros counter; simpl; [done|].
  destruct (path_exists_now (candidate destination counter)) eqn:Hc; simpl.
  - intros (k & Hk & -> & Hr & Hbelow)%IH. exists (S k).
    rewrite <-Nat.add_succ_comm. split_and!; [lia|done..|].
    intros [|j] Hj; [by rewrite Nat.add_0_r|].
    rewrite <-Nat.add_succ_comm. apply Hbelow. lia.
  - intros [= <-]. exists 0. rewrite Nat.add_0_r.
    split_and!; [lia|done..|]. intros j Hj. lia.
Qed.

Lemma unique_loop_None fuel destination counter :
  unique_loop path_exists_now fuel destination counter = None ↔
  ∀ j, j < fuel →
    path_exists_now (candidate destination (counter + j)) = true.
Proof.
  revert counter.
  induction fuel as [|fuel IH]; intros counter; simpl.
  { split; [intros _ j Hj; lia|done]. }
  destruct (path_exists_now (candidate destination counter)) eqn:Hc; simpl.
  - rewrite IH. split.
    + intros Hall [|j] Hj; [by rewrite Nat.add_0_r|].
      rewrite <-Nat.add_succ_comm. apply Hall. lia.
    + intros Hall j Hj. rewrite Nat.add_succ_comm. apply Hall. lia.
  - split; [done|]. intros Hall. specialize (Hall 0).
    rewrite Nat.add_0_r, Hc in Hall. discriminate Hall. lia.
Qed.

Lemma unique_loop_first fuel destination counter k :
  k < fuel →
  (∀ j, j < k →
     path_exists_now (candidate destination (counter + j)) = true) →
  path_exists_now (candidate destination (counter + k)) = false →
  unique_loop path_exists_now fuel destination counter
  = Some (candidate destination (counter + k)).
Proof.
  intros Hk Hbelow Hfree.
  destruct (unique_loop _ fuel _ _) as [r|] eqn:Hloop.
  - apply unique_loop_Some in Hloop as (k' & Hk' & -> & Hr & Hbelow').
    destruct (Nat.lt_total k k') as [Hlt|[->|Hlt]]; [|done|].
    + by rewrite (Hbelow' _ Hlt) in Hfree.
    + by rewrite (Hbelow _ Hlt) in Hr.
  - rewrite unique_loop_None in Hloop. by rewrite (Hloop _ Hk) in Hfree.
Qed.

Lemma unique_loop_mono fuel fuel' destination counter r :
  unique_loop path_exists_now fuel destination counter = Some r →
  fuel ≤ fuel' →
  unique_loop path_exists_now fuel' destination counter = Some r.
Proof.
  intros (k & Hk & -> & Hr & Hbelow)%unique_loop_Some Hle.
  apply unique_loop_first; [lia|done..].
Qed.
End resolver_facts.

(** ** Facts about the file system *)

Section filesystem_facts.
Implicit Types fs extra : filesystem.
Implicit Types p d : path.

Lemma stat_app fs extra p :
  stat (fs ++ extra) p
  = match stat fs p with Some k => Some k | None => stat extra p end.
Proof.
  induction fs as [|[q k] fs IH]; simpl; [done|].
  by case_bool_decide.
Qed.

Lemma stat_None fs p : stat fs p = None ↔ p ∉ fs.*1.
Proof.
  induction fs as [|[q k] fs IH]; simpl.
  - split; [intros _; apply not_elem_of_nil|done].
  - rewrite not_elem_of_cons. case_bool_decide as Hq.
    + split; [done|]. intros [Hne _]. by destruct Hne.
    + rewrite IH. split; [by intros; split; [congruence|]|by intros [_ ?]].
Qed.

Lemma path_exists_elem fs p : path_exists fs p = true ↔ p ∈ fs.*1.
Proof.
  unfold path_exists. destruct (stat fs p) as [k|] eqn:Hs.
  - split; [intros _|done].
    destruct (decide (p ∈ fs.*1)) as [|Hn]; [done|].
    apply stat_None in Hn. congruence.
  - apply stat_None in Hs. split; [done|]. intros. by destruct Hs.
Qed.

Lemma stat_all_dirs extra p k :
  Forall (λ e : path * kind, e.2 = Dir) extra →
  stat extra p = Some k → k = Dir.
Proof.
  induction 1 as [|[q k'] extra Hk _ IH]; simpl; [done|].
  case_bool_decide; [|done]. simpl in Hk. congruence.
Qed.

Lemma grows_refl fs : grows fs fs.
Proof. exists []. by rewrite app_nil_r. Qed.

Lemma grows_trans fs1 fs2 fs3 : grows fs1 fs2 → grows fs2 fs3 → grows fs1 fs3.
Proof.
  intros (e1 & -> & H1) (e2 & -> & H2). exists (e1 ++ e2).
  rewrite app_assoc. split; [done|]. apply Forall_app. split; [done|].
  eapply Forall_impl; [exact H2|]. intros [q k] [? Hq]. split; [done|].
  simpl in *. rewrite stat_app in Hq. by destruct (stat fs1 q).
Qed.

Lemma grows_stat fs fs' p k :
  grows fs fs' → stat fs p = Some k → stat fs' p = Some k.
Proof. intros (extra & -> & _) Hs. by rewrite stat_app, Hs. Qed.

Lemma grows_is_dir fs fs' p :
  grows fs fs' → is_dir fs p = true → is_dir fs' p = true.
Proof.
  unfold is_dir. intros Hg.
  destruct (stat fs p) as [[]|] eqn:Hs; [done| |done].
  by rewrite (grows_stat _ _ _ _ Hg Hs).
Qed.

Lemma grows_append_dir fs p :
  stat fs p = None → grows fs (fs ++ [(p, Dir)]).
Proof. intros Hs. exists [(p, Dir)]. split; [done|]. by repeat constructor. Qed.

Lemma os_mkdir_settles p fs : settles fs (os_mkdir p fs).
Proof.
  unfold os_mkdir, path_exists.
  destruct (stat fs p) eqn:Hp; simpl; [apply grows_refl|].
  destruct (stat fs (parent p)); simpl; [|apply grows_refl].
  destruct (is_dir fs (parent p)); simpl; [|apply grows_refl].
  by apply grows_append_dir.
Qed.

Lemma mkdir_exist_ok_settles p fs : settles fs (mkdir_exist_ok p fs).
Proof.
  unfold mkdir_exist_ok. pose proof (os_mkdir_settles p fs) as Hs.
  destruct (os_mkdir p fs) as [[] fs'|[] fs'|]; simpl in *; try done;
    by destruct (is_dir fs' p).
Qed.

Lemma bind_settles {A B} (m : M A) (k : A → M B) fs :
  settles fs (m fs) → (∀ a fs', settles fs' (k a fs')) →
  settles fs (bind m k fs).
Proof.
  unfold bind. intros Hm Hk. destruct (m fs) as [a fs'| |]; simpl in *;
    [|done..].
  specialize (Hk a fs'). destruct (k a fs'); simpl in *;
    [by eapply grows_trans..|done].
Qed.

Lemma mkdir_parents_settles depth p fs : settles fs (mkdir_parents depth p fs).
Proof.
  revert p fs. induction depth as [|depth IH]; intros p fs; simpl.
  - pose proof (os_mkdir_settles p fs) as Hs.
    destruct (os_mkdir p fs) as [[] fs'|[] fs'|]; simpl in *; try done;
      try (by destruct (is_dir fs' p)).
    by case_bool_decide.
  - pose proof (os_mkdir_settles p fs) as Hs.
    destruct (os_mkdir p fs) as [[] fs'|[] fs'|]; simpl in *; try done;
      try (by destruct (is_dir fs' p)).
    case_bool_decide; [done|].
    pose proof (bind_settles (mkdir_parents depth (parent p))
                  (λ _, mkdir_exist_ok p) fs' (IH _ _)
                  (λ _, mkdir_exist_ok_settles p)) as Hb.
    destruct (bind _ _ fs'); simpl in *; [by eapply grows_trans..|done].
Qed.

Lemma ensure_directory_settles p fs : settles fs (ensure_directory p fs).
Proof.
  unfold ensure_directory. destruct (path_exists fs p); simpl.
  - apply grows_refl.
  - apply mkdir_parents_settles.
Qed.

(** Below an existing directory, the category directory is created when
    it is missing, and nothing is raised. *)
Lemma ensure_directory_child d c fs :
  is_dir fs d = true →
  ∃ fs', ensure_directory (d </> c) fs = Ok () fs' ∧ grows fs fs' ∧
         path_exists fs' (d </> c) = true.
Proof.
  intros Hd. unfold ensure_directory.
  destruct (path_exists fs (d </> c)) eqn:He; simpl.
  { exists fs. split_and!; [done|apply grows_refl|done]. }
  assert (stat fs (d </> c) = None) as Hs.
  { unfold path_exists in He. by destruct (stat fs (d </> c)). }
  assert (os_mkdir (d </> c) fs = Ok () (fs ++ [(d </> c, Dir)])) as Hmk.
  { unfold os_mkdir. rewrite He, parent_joinpath, Hd. simpl.
    unfold is_dir in Hd. unfold path_exists.
    by destruct (stat fs d) as [[]|]. }
  exists (fs ++ [(d </> c, Dir)]). split_and!.
  - unfold Path_mkdir. destruct (length (d </> c)); simpl; by rewrite Hmk.
  - by apply grows_append_dir.
  - unfold path_exists. rewrite stat_app, Hs. simpl.
    by rewrite bool_decide_eq_true_2.
Qed.

(** Only finitely many candidates can exist: one of the first
    [length fs + 1] is free. *)
Lemma unique_loop_finite fs destination counter :
  unique_loop (path_exists fs) (S (length fs)) destination counter ≠ None.
Proof.
  rewrite unique_loop_None. intros Hall.
  set (l := (λ j, candidate destination (counter + j)) <$> seq 0 (S (length fs))).
  assert (NoDup l) as Hnd.
  { apply NoDup_fmap_2; [|apply NoDup_seq].
    intros j k Heq%candidate_inj. lia. }
  assert (l ⊆+ fs.*1) as Hsub.
  { apply NoDup_submseteq; [done|]. intros p Hp.
    apply list_elem_of_fmap in Hp as (j & -> & Hj%elem_of_seq).
    apply path_exists_elem, Hall. lia. }
  apply submseteq_length in Hsub.
  unfold l in Hsub. rewrite !length_fmap, length_seq in Hsub. lia.
Qed.

(** The resolver returns on every file system: fuel beyond the number of
    entries is never spent, and the answer does not depend on it. *)
Lemma resolve_returns fs destination :
  ∃ r, path_exists fs r = false ∧
       ∀ fuel, length fs < fuel → resolve fuel destination fs = Ok r fs.
Proof.
  unfold resolve, generate_unique_destination_path.
  destruct (path_exists fs destination) eqn:He; simpl.
  - destruct (unique_loop (path_exists fs) (S (length fs)) destination 1)
      as [r|] eqn:Hloop; [|by apply unique_loop_finite in Hloop].
    exists r. split.
    + by apply unique_loop_Some in Hloop as (k & _ & -> & Hr & _).
    + intros fuel Hfuel.
      by rewrite (unique_loop_mono _ _ fuel _ _ _ Hloop) by lia.
  - exists destination. by split.
Qed.
End filesystem_facts.

(** ** Facts about the plan builder *)

Section builder_facts.
Implicit Types fs : filesystem.
Implicit Types directory child : path.

Lemma plan_children_app fs directory include_hidden l1 l2 :
  plan_children fs directory include_hidden (l1 ++ l2)
  = plan_children fs directory include_hidden l1
    ++ plan_children fs directory include_hidden l2.
Proof.
  induction l1 as [|child l1 IH]; simpl; [done|].
  destruct (is_dir fs child); [done|].
  destruct (negb include_hidden && is_hidden_file child); [done|].
  by rewrite IH.
Qed.

Lemma plan_children_ext fs fs' directory include_hidden children :
  (∀ child, child ∈ children → is_dir fs' child = is_dir fs child) →
  plan_children fs' directory include_hidden children
  = plan_children fs directory include_hidden children.
Proof.
  induction children as [|child children IH]; simpl; intros Hsame; [done|].
  rewrite (Hsame child) by left.
  rewrite IH; [done|]. intros c Hc. apply Hsame. by right.
Qed.

Lemma plan_children_dirs fs directory include_hidden children :
  (∀ child, child ∈ children → is_dir fs child = true) →
  plan_children fs directory include_hidden children = [].
Proof.
  induction children as [|child children IH]; simpl; intros Hdirs; [done|].
  rewrite (Hdirs child) by left. apply IH. intros c Hc. apply Hdirs. by right.
Qed.

(** Every planned destination lies in a category directory directly
    below the target directory. *)
Lemma plan_children_parent fs directory include_hidden children :
  Forall (λ plan, ∃ c, parent (destination plan) = directory </> c)
    (plan_children fs directory include_hidden children).
Proof.
  induction children as [|child children IH]; simpl; [done|].
  destruct (is_dir fs child); [done|].
  destruct (negb include_hidden && is_hidden_file child); [done|].
  constructor; [|done]. eexists. simpl. apply parent_joinpath.
Qed.

Lemma build_inr fs directory include_hidden plans :
  build_move_plan_for_directory fs directory include_hidden = inr plans ↔
  is_dir fs directory = true ∧
  plans = plan_children fs directory include_hidden (iterdir fs directory).
Proof.
  unfold build_move_plan_for_directory, path_exists, is_dir.
  destruct (stat fs directory) as [[]|]; simpl; split;
    solve [done | by intros [= <-] | by intros [[=] _] | by intros [_ ->]].
Qed.

(** New directories never change the plan: they are skipped, and the
    entries listed before them keep their order. *)
Lemma build_grows fs fs' directory include_hidden plans :
  grows fs fs' →
  build_move_plan_for_directory fs directory include_hidden = inr plans →
  build_move_plan_for_directory fs' directory include_hidden = inr plans.
Proof.
  intros Hg. rewrite !build_inr. intros [Hd ->].
  split; [by eapply grows_is_dir|].
  destruct Hg as (extra & -> & Hextra).
  unfold iterdir. rewrite fmap_app, filter_app, plan_children_app.
  rewrite (plan_children_dirs _ _ _ (filter _ extra.*1)), app_nil_r.
  - apply plan_children_ext. intros child [_ Hc]%list_elem_of_filter.
    unfold is_dir. rewrite stat_app.
    destruct (stat fs child) eqn:Hs; [done|].
    apply stat_None in Hs. by destruct Hs.
  - intros child [_ Hc]%list_elem_of_filter.
    apply list_elem_of_fmap in Hc as ([q k] & -> & Hin).
    rewrite Forall_forall in Hextra.
    destruct (Hextra _ Hin) as [_ Hnew]. simpl in *.
    unfold is_dir. rewrite stat_app, Hnew.
    destruct (stat extra q) as [k'|] eqn:Hs.
    + rewrite (stat_all_dirs extra q k'); [done| |done].
      eapply Forall_impl; [apply Forall_forall, Hextra|]. by intros ? [].
    + apply stat_None in Hs. destruct Hs.
      apply list_elem_of_fmap. by exists (q, k).
Qed.
End builder_facts.

(** ** Facts about the executor *)

Section executor_facts.
Implicit Types fs : filesystem.
Implicit Types per_category : gmap string nat.
Implicit Types plans : list MovePlan.

Lemma total_empty : total ∅ = 0.
Proof. apply map_fold_empty. Qed.

Lemma total_insert_fresh per_category c x :
  per_category !! c = None →
  total (<[c:=x]> per_category) = x + total per_category.
Proof.
  intros Hc. unfold total. rewrite map_fold_insert_L; [done| |done].
  intros. lia.
Qed.

Lemma total_delete per_category c x :
  per_category !! c = Some x →
  total per_category = x + total (delete c per_category).
Proof.
  intros Hc. unfold total.
  rewrite (map_fold_delete_L _ _ c x per_category); [done| |done].
  intros. lia.
Qed.

(** [per_category[c] = per_category.get(c, 0) + 1] adds one to the sum. *)
Lemma total_increment per_category c :
  total (<[c := default 0 (per_category !! c) + 1]> per_category)
  = S (total per_category).
Proof.
  destruct (per_category !! c) as [x|] eqn:Hc; simpl.
  - rewrite <-insert_delete_eq, total_insert_fresh by apply lookup_delete_eq.
    rewrite (total_delete per_category c x) by done. lia.
  - rewrite total_insert_fresh by done. lia.
Qed.

Lemma shutil_move_returns src dst fs : shutil_move src dst fs ≠ Hang.
Proof.
  unfold shutil_move.
  destruct (is_dir fs dst && bool_decide (src = dst)); [done|].
  destruct (is_dir fs dst && path_exists fs _); [done|].
  destruct (stat fs src) as [[]|]; [| |done].
  - by repeat destruct (_ : bool).
  - case_bool_decide; [done|].
    destruct (path_exists fs _); [done|].
    destruct (is_dir fs (parent _)); [done|].
    destruct (path_exists fs (parent _)); [done|].
    unfold bind.
    pose proof (mkdir_parents_settles (length (parent
      (if is_dir fs dst then dst </> name src else dst)))
      (parent (if is_dir fs dst then dst </> name src else dst)) fs) as Hs.
    unfold Path_mkdir. by destruct (mkdir_parents _ _ fs).
Qed.

(** One iteration of the loop, written out. *)
Lemma apply_loop_cons fuel dry_run plan rest moved_count per_category out fs :
  apply_loop fuel dry_run (plan :: rest) moved_count per_category out fs
  = match ensure_directory (parent (destination plan)) fs with
    | Ok _ fs1 =>
        match resolve fuel (destination plan) fs1 with
        | Ok unique_destination fs2 =>
            if dry_run then
              apply_loop fuel dry_run rest moved_count per_category
                (out ++ [DryRunLine (name (source plan))
                           (name (parent (destination plan)))
                           (name unique_destination)]) fs2
            else
              match shutil_move (source plan) unique_destination fs2 with
              | Ok _ fs3 =>
                  apply_loop fuel dry_run rest (moved_count + 1)
                    (<[category plan :=
                         default 0 (per_category !! category plan) + 1]>
                       per_category) out fs3
              | Raise e fs3 => Raise e fs3
              | Hang => Hang
              end
        | Raise e fs2 => Raise e fs2
        | Hang => Hang
        end
    | Raise e fs1 => Raise e fs1
    | Hang => Hang
    end.
Proof.
  simpl. unfold bind.
  destruct (ensure_directory _ fs) as [? fs1| |]; [|done..].
  destruct (resolve _ _ fs1) as [u fs2| |]; [|done..].
  by destruct dry_run.
Qed.

Lemma apply_loop_app fuel dry_run pre post moved_count per_category out fs :
  apply_loop fuel dry_run (pre ++ post) moved_count per_category out fs
  = match apply_loop fuel dry_run pre moved_count per_category out fs with
    | Ok ((n1, m1), out1) fs1 => apply_loop fuel dry_run post n1 m1 out1 fs1
    | Raise e fs1 => Raise e fs1
    | Hang => Hang
    end.
Proof.
  revert moved_count per_category out fs.
  induction pre as [|plan pre IH]; intros n m out fs; [done|].
  rewrite <-app_comm_cons, !apply_loop_cons.
  destruct (ensure_directory _ fs) as [? fs1| |]; [|done..].
  destruct (resolve _ _ fs1) as [u fs2| |]; [|done..].
  destruct dry_run; [apply IH|].
  destruct (shutil_move _ _ fs2) as [? fs3| |]; [apply IH|done..].
Qed.

(** With enough fuel the loop returns or raises, and more fuel changes
    nothing. *)
Lemma apply_loop_settled dry_run plans moved_count per_category out fs :
  ∃ F r, r ≠ Hang ∧
    ∀ fuel, F ≤ fuel →
      apply_loop fuel dry_run plans moved_count per_category out fs = r.
Proof.
  revert moved_count per_category out fs.
  induction plans as [|plan rest IH]; intros n m out fs.
  { by exists 0, (Ok (n, m, out) fs). }
  pose proof (ensure_directory_settles (parent (destination plan)) fs) as Hs.
  destruct (ensure_directory (parent (destination plan)) fs)
    as [? fs1|e fs1|] eqn:Hens; [| |done].
  2:{ exists 0, (Raise e fs1). split; [done|]. intros fuel _.
      by rewrite apply_loop_cons, Hens. }
  destruct (resolve_returns fs1 (destination plan)) as (u & _ & Hres).
  destruct dry_run.
  - destruct (IH n m (out ++ [DryRunLine (name (source plan))
      (name (parent (destination plan))) (name u)]) fs1) as (F & r & Hr & HF).
    exists (max (S (length fs1)) F), r. split; [done|]. intros fuel Hfuel.
    rewrite apply_loop_cons, Hens, Hres by lia. apply HF. lia.
  - pose proof (shutil_move_returns (source plan) u fs1) as Hmv.
    destruct (shutil_move (source plan) u fs1) as [? fs2|e fs2|] eqn:Hmove;
      [| |done].
    + destruct (IH (n + 1)
        (<[category plan := default 0 (m !! category plan) + 1]> m) out fs2)
        as (F & r & Hr & HF).
      exists (max (S (length fs1)) F), r. split; [done|]. intros fuel Hfuel.
      rewrite apply_loop_cons, Hens, Hres, Hmove by lia. apply HF. lia.
    + exists (S (length fs1)), (Raise e fs2). split; [done|].
      intros fuel Hfuel. by rewrite apply_loop_cons, Hens, Hres, Hmove by lia.
Qed.

(** A dry run leaves the counters alone, prints one line per item, and
    never removes or renames an entry. *)
Lemma apply_loop_dry_run fuel plans moved_count per_category out fs :
  match apply_loop fuel true plans moved_count per_category out fs with
  | Ok (c, out') fs' =>
      c = (moved_count, per_category)
      ∧ length out' = length out + length plans ∧ grows fs fs'
  | Raise _ fs' => grows fs fs'
  | Hang => True
  end.
Proof.
  revert out fs. induction plans as [|plan rest IH]; intros out fs.
  { simpl. split_and!; [done|lia|apply grows_refl]. }
  rewrite apply_loop_cons.
  pose proof (ensure_directory_settles (parent (destination plan)) fs) as Hs.
  destruct (ensure_directory _ fs) as [? fs1|e fs1|]; [|done..].
  unfold resolve.
  destruct (generate_unique_destination_path _ _ _) as [u|]; [|done].
  specialize (IH (out ++ [DryRunLine (name (source plan))
    (name (parent (destination plan))) (name u)]) fs1).
  destruct (apply_loop _ _ rest _ _ _ fs1) as [[c out'] fs'|e fs'|];
    [|by eapply grows_trans|done].
  destruct IH as (-> & Hlen & Hg). rewrite length_app in Hlen. simpl in *.
  split_and!; [done|lia|by eapply grows_trans].
Qed.

(** On a plan whose destinations lie in category directories of an
    existing directory, the dry run returns. *)
Lemma apply_loop_dry_run_returns directory plans moved_count per_category
    out fs :
  is_dir fs directory = true →
  Forall (λ plan, ∃ c, parent (destination plan) = directory </> c) plans →
  ∃ F, ∀ fuel, F ≤ fuel →
    ∃ out' fs',
      apply_loop fuel true plans moved_count per_category out fs
      = Ok ((moved_count, per_category), out') fs' ∧ grows fs fs'.
Proof.
  intros Hd Hplans. revert out fs Hd.
  induction Hplans as [|plan rest [c Hc] _ IH]; intros out fs Hd.
  { exists 0. intros fuel _. exists out, fs. split; [done|apply grows_refl]. }
  destruct (ensure_directory_child directory c fs Hd) as (fs1 & Hens & Hg & _).
  destruct (resolve_returns fs1 (destination plan)) as (u & _ & Hres).
  destruct (IH (out ++ [DryRunLine (name (source plan))
    (name (parent (destination plan))) (name u)]) fs1) as [F HF].
  { by eapply grows_is_dir. }
  exists (max (S (length fs1)) F). intros fuel Hfuel.
  destruct (HF fuel) as (out' & fs' & Hrun & Hg'); [lia|].
  exists out', fs'. split; [|by eapply grows_trans].
  rewrite <-Hc in Hens. rewrite apply_loop_cons, Hens, Hres by lia. done.
Qed.

(** The loop invariant of a live run: [moved_count] is the sum of the
    per-category counts, and grows by one per item. *)
Lemma apply_loop_live_counts fuel plans moved_count per_category out fs
    n' m' out' fs' :
  apply_loop fuel false plans moved_count per_category out fs
  = Ok ((n', m'), out') fs' →
  moved_count = total per_category →
  n' = total m' ∧ n' = moved_count + length plans.
Proof.
  revert moved_count per_category fs.
  induction plans as [|plan rest IH]; intros n m fs.
  { simpl. intros [= <- <- <- <-] ->. split; [done|lia]. }
  rewrite apply_loop_cons.
  destruct (ensure_directory _ fs) as [? fs1| |]; [|done..].
  destruct (resolve _ _ fs1) as [u fs2| |]; [|done..].
  destruct (shutil_move _ _ fs2) as [? fs3| |]; [|done..].
  intros Hrun Hinv. apply IH in Hrun as [-> ->].
  - split; [done|]. simpl. lia.
  - rewrite total_increment. lia.
Qed.
End executor_facts.

(** ** Properties of the specification *)

(** C1: the code at a directory without category subdirectories.  The dry
    run returns zero counters and moves nothing, yet the call to
    [ensure_directory], made before [dry_run] is tested, has created the
    category directories: the file system is not left unchanged. *)
Theorem dry_run_creates_category_directories :
  path_exists sample_fs (downloads </> "Imagenes") = false ∧
  ∃ out fs',
    main 9 downloads true false sample_fs = Ok ((0, ∅), out) fs' ∧
    is_dir fs' (downloads </> "Imagenes") = true ∧
    fs' = sample_fs ++ [(downloads </> "Imagenes", Dir);
                        (downloads </> "Documentos", Dir);
                        (downloads </> "Comprimidos", Dir);
                        (downloads </> "Codigo", Dir);
                        (downloads </> "Otros", Dir)].
Proof. split; [done|]. eexists _, _. by vm_compute. Qed.

Lemma plan_children_elem fs directory include_hidden children child :
  child ∈ children → is_dir fs child = false →
  negb include_hidden && is_hidden_file child = false →
  plan_child directory child
  ∈ plan_children fs directory include_hidden children.
Proof.
  intros Hin Hd Hh. induction children as [|c children IH]; simpl.
  { by apply elem_of_nil in Hin. }
  apply elem_of_cons in Hin as [<-|Hin].
  - rewrite Hd, Hh. by left.
  - destruct (is_dir fs c); [by apply IH|].
    destruct (negb include_hidden && is_hidden_file c); [by apply IH|].
    right. by apply IH.
Qed.

Lemma iterdir_elem fs directory nm k :
  stat fs (directory </> nm) = Some k → directory </> nm ∈ iterdir fs directory.
Proof.
  intros Hs. unfold iterdir. apply list_elem_of_filter.
  split; [split; [apply joinpath_nonempty|apply parent_joinpath]|].
  destruct (decide (directory </> nm ∈ fs.*1)) as [|Hn]; [done|].
  apply stat_None in Hn. congruence.
Qed.

(** C2, as stated, fails: the extension the plan builder extracts from
    [archive.tar.gz] is [.gz], not [.tar.gz]. *)
Lemma archive_extension_is_not_tar_gz :
  file_extension (downloads </> "archive.tar.gz") = ".gz" ∧
  file_extension (downloads </> "archive.tar.gz") ≠ ".tar.gz".
Proof. by vm_compute. Qed.

Lemma suffix_app directory base tail i :
  Str.rfind "." tail = Some i → 0 < String.length base + i →
  i < String.length tail - 1 →
  suffix (directory </> (base +:+ tail)) = Str.drop i tail.
Proof.
  intros Hr Hpos Hlast. unfold suffix. rewrite name_joinpath.
  assert (suffix_index (base +:+ tail) = Some (String.length base + i))
    as ->.
  { apply suffix_index_Some. rewrite rfind_app, Hr, string_app_length.
    split; [done|lia]. }
  apply str_drop_app_plus.
Qed.

(** C2, amended: a file whose name ends in one of the multi-segment
    extensions of the table, [.tar.gz], [.tar.bz2] or [.tar.xz], such as
    [archive.tar.gz], is classified by its last suffix only, [.gz], [.bz2]
    or [.xz].  The extension the builder extracts from a name is empty or
    holds a single dot, its first character, so it is never one of the
    three multi-segment entries.  The last suffix is listed under
    Comprimidos, and the file, unless skipped as hidden, is planned into
    [Comprimidos] under its own name. *)
Theorem plan_archive_tar_gz fs directory include_hidden plans base ext :
  ext ∈ [".gz"; ".bz2"; ".xz"] →
  build_move_plan_for_directory fs directory include_hidden = inr plans →
  stat fs (directory </> (base +:+ ".tar" +:+ ext)) = Some File →
  include_hidden = true
  ∨ Str.startswith_dot (base +:+ ".tar" +:+ ext) = false →
  file_extension (directory </> (base +:+ ".tar" +:+ ext)) = ext ∧
  (∀ child, file_extension child ∉ [".tar.gz"; ".tar.bz2"; ".tar.xz"]) ∧
  (∀ child, file_extension child = ""
            ∨ Str.rfind "." (file_extension child) = Some 0) ∧
  {| source := directory </> (base +:+ ".tar" +:+ ext);
     destination := directory </> "Comprimidos" </> (base +:+ ".tar" +:+ ext);
     category := "Comprimidos" |} ∈ plans.
Proof.
  intros Hext [Hd ->]%build_inr Hs Hvisible.
  assert (suffix (directory </> (base +:+ ".tar" +:+ ext)) = ext
          ∧ Str.lower ext = ext
          ∧ infer_category_from_extension ext = "Comprimidos")
    as (Hsuf & Hlow & Hcat).
  { repeat (apply elem_of_cons in Hext as [->|Hext]);
      [..|by apply elem_of_nil in Hext];
      (split; [|by vm_compute]);
      [ change (".tar" +:+ ".gz") with ".tar.gz"
      | change (".tar" +:+ ".bz2") with ".tar.bz2"
      | change (".tar" +:+ ".xz") with ".tar.xz" ];
      rewrite (suffix_app _ _ _ 4); first [done | simpl; lia]. }
  assert (file_extension (directory </> (base +:+ ".tar" +:+ ext)) = ext)
    as Hfe.
  { unfold file_extension. by rewrite Hsuf. }
  split_and!; [done| | |].
  - intros child Hin. destruct (file_extension_one_dot child) as [He|He];
      repeat (apply elem_of_cons in Hin as [Heq|Hin];
              [rewrite Heq in He; by vm_compute in He|]);
      by apply elem_of_nil in Hin.
  - apply file_extension_one_dot.
  - pose proof (plan_children_elem fs directory include_hidden
      (iterdir fs directory) (directory </> (base +:+ ".tar" +:+ ext)))
      as Hin.
    unfold plan_child in Hin. rewrite Hfe, Hcat, name_joinpath in Hin.
    apply Hin.
    + by eapply iterdir_elem.
    + unfold is_dir. by rewrite Hs.
    + unfold is_hidden_file. rewrite name_joinpath.
      destruct Hvisible as [-> | ->]; [done|apply andb_false_r].
Qed.

Lemma plan_archive_tar_gz_witness :
  file_extension (downloads </> "archive.tar.gz") = ".gz" ∧
  (∀ child, file_extension child ∉ [".tar.gz"; ".tar.bz2"; ".tar.xz"]) ∧
  (∀ child, file_extension child = ""
            ∨ Str.rfind "." (file_extension child) = Some 0) ∧
  {| source := downloads </> "archive.tar.gz";
     destination := downloads </> "Comprimidos" </> "archive.tar.gz";
     category := "Comprimidos" |} ∈ sample_plans.
Proof.
  apply (plan_archive_tar_gz sample_fs downloads false sample_plans
           "archive" ".gz").
  - apply (bool_decide_unpack _). vm_compute. reflexivity.
  - vm_compute. reflexivity.
  - vm_compute. reflexivity.
  - right. vm_compute. reflexivity.
Defined.

(** C3: the resolver returns a destination that does not exist unchanged;
    otherwise it returns the candidate [stem (k).ext] of the same parent
    directory for the least [k >= 1] that does not exist, which it reaches
    within [k] iterations, [k] being at most the number of entries plus
    one.  What it returns never exists.  For [report.pdf] the candidates
    are [report (1).pdf], [report (2).pdf], ... *)
Theorem generate_unique_destination_path_spec fs destination :
  (path_exists fs destination = false →
   ∀ fuel,
     generate_unique_destination_path (path_exists fs) fuel destination
     = Some destination) ∧
  (path_exists fs destination = true →
   ∃ k, 1 ≤ k ≤ S (length fs) ∧
        (∀ j, 1 ≤ j < k → path_exists fs (candidate destination j) = true) ∧
        path_exists fs (candidate destination k) = false ∧
        ∀ fuel, k ≤ fuel →
          generate_unique_destination_path (path_exists fs) fuel destination
          = Some (candidate destination k)) ∧
  (∀ fuel r,
     generate_unique_destination_path (path_exists fs) fuel destination
     = Some r →
     path_exists fs r = false) ∧
  (∀ k, parent (candidate destination k) = parent destination) ∧
  (∀ d, candidate (d </> "report.pdf") 1 = d </> "report (1).pdf" ∧
        candidate (d </> "report.pdf") 2 = d </> "report (2).pdf").
Proof.
  unfold generate_unique_destination_path. split_and!.
  - by intros ->.
  - intros ->. simpl.
    destruct (unique_loop (path_exists fs) (S (length fs)) destination 1)
      as [r|] eqn:Hloop; [|by apply unique_loop_finite in Hloop].
    apply unique_loop_Some in Hloop as (k & Hk & -> & Hr & Hbelow).
    exists (1 + k). split_and!; [lia|lia| |done|].
    + intros j Hj. replace j with (1 + (j - 1)) by lia. apply Hbelow. lia.
    + intros fuel Hfuel. apply unique_loop_first; [lia|done..].
  - intros fuel r. destruct (path_exists fs destination) eqn:He; simpl.
    + by intros (k & _ & -> & Hr & _)%unique_loop_Some.
    + by intros [= <-].
  - intros k. apply parent_joinpath.
  - intros d. unfold candidate, stem, suffix.
    by rewrite parent_joinpath, name_joinpath.
Qed.

(** With [report.pdf] present the resolver answers [report (1).pdf]; with
    that one present too it answers [report (2).pdf]. *)
Lemma generate_unique_destination_path_spec_witness :
  generate_unique_destination_path (path_exists collision_fs) 1
    (documents </> "report.pdf") = Some (documents </> "report (1).pdf") ∧
  generate_unique_destination_path
    (path_exists (collision_fs ++ [(documents </> "report (1).pdf", File)])) 2
    (documents </> "report.pdf") = Some (documents </> "report (2).pdf").
Proof.
  split.
  - destruct (generate_unique_destination_path_spec collision_fs
      (documents </> "report.pdf")) as (_ & Hsome & _ & _ & Hnames).
    destruct Hsome as (k & Hk & Hbelow & Hfree & Hrun);
      [vm_compute; reflexivity|].
    assert (k = 1) as ->.
    { destruct (decide (k = 1)) as [|Hne]; [done|].
      assert (1 ≤ 1 < k) as H1 by lia.
      apply Hbelow in H1. vm_compute in H1. discriminate H1. }
    rewrite (Hrun 1) by lia. by rewrite (proj1 (Hnames documents)).
  - destruct (generate_unique_destination_path_spec
      (collision_fs ++ [(documents </> "report (1).pdf", File)])
      (documents </> "report.pdf")) as (_ & Hsome & _ & _ & Hnames).
    destruct Hsome as (k & Hk & Hbelow & Hfree & Hrun);
      [vm_compute; reflexivity|].
    assert (k = 2) as ->.
    { destruct (decide (k = 1)) as [->|Hne1];
        [vm_compute in Hfree; discriminate Hfree|].
      destruct (decide (k = 2)) as [|Hne2]; [done|].
      assert (1 ≤ 2 < k) as H2 by lia.
      apply Hbelow in H2. vm_compute in H2. discriminate H2. }
    rewrite (Hrun 2) by lia. by rewrite (proj2 (Hnames documents)).
Defined.

(** Two items colliding with an existing [report.pdf] are moved to
    [report (1).pdf] and [report (2).pdf]; the existing file stays. *)
Example apply_move_plan_collisions :
  apply_move_plan 3 collision_plans false collision_fs
  = Ok ((2, {[ "Documentos" := 2 ]}), [])
      [ ([], Dir); (["home"], Dir); (downloads, Dir); (documents, Dir);
        (documents </> "report.pdf", File);
        (documents </> "report (1).pdf", File);
        (["home"; "inbox"], Dir);
        (documents </> "report (2).pdf", File) ].
Proof. by vm_compute. Qed.

(** C4: on a path that does not exist or is not a directory the plan
    builder fails with [ValueError] and yields no plan, and [main] stops
    there with the file system as it was. *)
Theorem build_move_plan_invalid_target fs directory include_hidden :
  path_exists fs directory = false ∨ is_dir fs directory = false →
  build_move_plan_for_directory fs directory include_hidden = inl ValueError ∧
  ∀ fuel dry_run,
    main fuel directory dry_run include_hidden fs = Raise ValueError fs.
Proof.
  intros Hbad.
  assert (build_move_plan_for_directory fs directory include_hidden
          = inl ValueError) as Hbuild.
  { unfold build_move_plan_for_directory. by destruct Hbad as [-> | ->];
      [|rewrite orb_true_r]. }
  split; [done|]. intros fuel dry_run. unfold main. by rewrite Hbuild.
Qed.

Lemma build_move_plan_invalid_target_witness :
  (build_move_plan_for_directory sample_fs ["home"; "Missing"] false
   = inl ValueError ∧
   ∀ fuel dry_run,
     main fuel ["home"; "Missing"] dry_run false sample_fs
     = Raise ValueError sample_fs) ∧
  (build_move_plan_for_directory sample_fs (downloads </> "notes.txt") false
   = inl ValueError ∧
   ∀ fuel dry_run,
     main fuel (downloads </> "notes.txt") dry_run false sample_fs
     = Raise ValueError sample_fs).
Proof.
  split.
  - apply (build_move_plan_invalid_target sample_fs ["home"; "Missing"] false).
    left. vm_compute. reflexivity.
  - apply (build_move_plan_invalid_target sample_fs
             (downloads </> "notes.txt") false).
    right. vm_compute. reflexivity.
Defined.

(** C5, as stated, fails: when every path is reported as existing, no
    number of iterations makes the resolver return or fail. *)
Lemma resolver_never_gives_up :
  ¬ ∃ fuel r,
      generate_unique_destination_path (λ _, true) fuel
        (documents </> "report.pdf") = Some r.
Proof.
  intros (fuel & r & Hrun).
  unfold generate_unique_destination_path in Hrun. simpl in Hrun.
  by apply unique_loop_Some in Hrun as (_ & _ & _ & ? & _).
Qed.

(** C5, amended: the resolver has no bound on its attempts and no failure
    outcome.  When every candidate is reported as existing its loop never
    exits; it returns as soon as a candidate is reported absent; and on a
    file system, which lists finitely many entries, it returns within as
    many iterations as there are entries plus one. *)
Theorem resolver_termination :
  (∀ path_exists_now destination,
     (∀ p, path_exists_now p = true) →
     ∀ fuel,
       generate_unique_destination_path path_exists_now fuel destination
       = None) ∧
  (∀ path_exists_now destination k fuel,
     path_exists_now (candidate destination (S k)) = false → k < fuel →
     ∃ r, generate_unique_destination_path path_exists_now fuel destination
          = Some r) ∧
  (∀ fs destination,
     ∃ r, ∀ fuel, length fs < fuel →
       generate_unique_destination_path (path_exists fs) fuel destination
       = Some r).
Proof.
  unfold generate_unique_destination_path. split_and!.
  - intros ex destination Hall fuel. rewrite Hall. simpl.
    apply unique_loop_None. intros j _. apply Hall.
  - intros ex destination k fuel Hfree Hk.
    destruct (ex destination); simpl; [|by eexists].
    destruct (unique_loop ex fuel destination 1) as [r|] eqn:Hloop;
      [by eexists|].
    rewrite unique_loop_None in Hloop. specialize (Hloop k Hk).
    change (1 + k) with (S k) in Hloop. congruence.
  - intros fs destination.
    destruct (resolve_returns fs destination) as (r & _ & Hr).
    exists r. intros fuel Hfuel. specialize (Hr fuel Hfuel).
    unfold resolve, generate_unique_destination_path in Hr.
    by destruct (if negb _ then _ else _) as [u|]; simplify_eq.
Qed.

Lemma resolver_termination_witness :
  (∀ fuel,
     generate_unique_destination_path (λ _, true) fuel
       (documents </> "report.pdf") = None) ∧
  (∃ r, generate_unique_destination_path (path_exists collision_fs) 1
          (documents </> "report.pdf") = Some r).
Proof.
  destruct resolver_termination as (Hnever & Hsoon & _). split.
  - intros fuel. by apply Hnever.
  - apply (Hsoon _ _ 0); [vm_compute; reflexivity|lia].
Defined.

(** C6: classification lower-cases its input before the lookup, whatever
    lower-casing does: an extension whose lower-cased form is listed under
    a category is classified as that category, so every case variant of a
    listed extension is.  Lower-casing twice being lower-casing once,
    [classify e = classify (lower e)]; and as lower-casing leaves the
    listed extensions as they are, each of them is classified under its
    own category. *)
Theorem infer_category_case_insensitive (str_lower : string → string) :
  ((∀ s, str_lower (str_lower s) = str_lower s) →
   ∀ e, infer_category_from_extension_by str_lower e
        = infer_category_from_extension_by str_lower (str_lower e)) ∧
  (∀ cat exts e,
      (cat, exts) ∈ CATEGORIES → str_lower e ∈ exts →
      infer_category_from_extension_by str_lower e = cat) ∧
  ((∀ x, x ∈ mjoin CATEGORIES.*2 → str_lower x = x) →
   ∀ cat exts x,
      (cat, exts) ∈ CATEGORIES → x ∈ exts →
      infer_category_from_extension_by str_lower x = cat).
Proof.
  split; [|split].
  - intros Hidemp e. unfold infer_category_from_extension_by.
    by rewrite Hidemp.
  - intros cat exts e Hin He. unfold infer_category_from_extension_by.
    by apply (first_category_hit _ _ cat exts); [apply CATEGORIES_disjoint|..].
  - intros Hfix cat exts x Hin Hx. unfold infer_category_from_extension_by.
    rewrite Hfix.
    + by apply (first_category_hit _ _ cat exts);
        [apply CATEGORIES_disjoint|..].
    + apply list_elem_of_join. exists exts. split; [done|].
      apply list_elem_of_fmap. by exists (cat, exts).
Qed.

(** On ASCII text: [.JPG] and [.jpg] are both images, and [.jpg] is
    classified as [.jpg.lower()] is. *)
Lemma infer_category_case_insensitive_witness :
  infer_category_from_extension ".JPG" = "Imagenes" ∧
  infer_category_from_extension ".jpg" = "Imagenes" ∧
  infer_category_from_extension ".JPG"
  = infer_category_from_extension (Str.lower ".JPG").
Proof.
  destruct (infer_category_case_insensitive Str.lower)
    as (Hlower & Hvariant & Hlisted).
  split_and!.
  - eapply (Hvariant "Imagenes" _ ".JPG"); [by left|].
    apply (bool_decide_unpack _). vm_compute. reflexivity.
  - eapply (Hlisted _ "Imagenes" _ ".jpg"); [by left|].
    apply (bool_decide_unpack _). vm_compute. reflexivity.
  - apply Hlower, lower_idemp.
  Unshelve.
  intros x Hx.
  assert (Forall (λ e, Str.lower e = e) (mjoin CATEGORIES.*2)) as Hall.
  { apply (bool_decide_unpack _). vm_compute. reflexivity. }
  rewrite Forall_forall in Hall. by apply Hall.
Defined.

(** C7: whatever lower-casing does, an extension whose lower-cased form
    is listed under no category is classified as the default category; so
    is the empty extension, which lower-casing leaves empty. *)
Theorem infer_category_default (str_lower : string → string) e :
  (∀ cat exts, (cat, exts) ∈ CATEGORIES → str_lower e ∉ exts) →
  infer_category_from_extension_by str_lower e = DEFAULT_OTHER_CATEGORY
  ∧ (str_lower "" = "" →
     infer_category_from_extension_by str_lower "" = DEFAULT_OTHER_CATEGORY).
Proof.
  intros Hmiss. unfold infer_category_from_extension_by. split.
  - by apply first_category_miss.
  - by intros ->.
Qed.

Lemma infer_category_default_witness :
  infer_category_from_extension ".xyz" = DEFAULT_OTHER_CATEGORY
  ∧ (Str.lower "" = "" →
     infer_category_from_extension "" = DEFAULT_OTHER_CATEGORY).
Proof.
  apply (infer_category_default Str.lower ".xyz").
  intros cat exts Hin Hx.
  assert (Str.lower ".xyz" ∈ mjoin CATEGORIES.*2) as Hany.
  { apply list_elem_of_join. exists exts. split; [done|].
    apply list_elem_of_fmap. by exists (cat, exts). }
  revert Hany. change (Str.lower ".xyz" ∉ mjoin CATEGORIES.*2).
  apply (bool_decide_unpack _). vm_compute. reflexivity.
Defined.

(** C8: a dry run on a valid directory returns, and the plan built
    afterwards, from the file system the dry run left, is the plan built
    before it: same items, in the same order. *)
Theorem dry_run_twice_same_plan fs directory include_hidden plans :
  build_move_plan_for_directory fs directory include_hidden = inr plans →
  ∃ F, ∀ fuel, F ≤ fuel →
    ∃ out fs',
      main fuel directory true include_hidden fs = Ok ((0, ∅), out) fs' ∧
      build_move_plan_for_directory fs' directory include_hidden = inr plans ∧
      ∃ out', ∃ fs'',
        main fuel directory true include_hidden fs' = Ok ((0, ∅), out') fs''.
Proof.
  intros Hbuild. pose proof Hbuild as [Hd Hplans]%build_inr.
  assert (∀ fs1, is_dir fs1 directory = true → ∃ F1, ∀ fuel, F1 ≤ fuel →
            ∃ out fs', apply_move_plan fuel plans true fs1
                       = Ok ((0, ∅), out) fs' ∧ grows fs1 fs') as Hreturns.
  { intros fs1 Hd1.
    apply (apply_loop_dry_run_returns directory plans 0 ∅ [] fs1 Hd1).
    rewrite Hplans. apply plan_children_parent. }
  (* the first run, with fuel beyond which its result is settled *)
  destruct (Hreturns fs Hd) as [F HF].
  destruct (apply_loop_settled true plans 0 ∅ [] fs) as (Fs & r & _ & Hs).
  destruct (HF (max F Fs)) as (out & fs' & Hrun & Hg); [lia|].
  (* the second run starts from what the first one left *)
  destruct (Hreturns fs' (grows_is_dir _ _ _ Hg Hd)) as [F1 HF1].
  exists (max (max F Fs) F1). intros fuel Hfuel.
  assert (apply_move_plan fuel plans true fs = Ok ((0, ∅), out) fs') as Hrun'.
  { unfold apply_move_plan in *. rewrite Hs by lia.
    by rewrite <-(Hs (max F Fs)) by lia. }
  assert (build_move_plan_for_directory fs' directory include_hidden
          = inr plans) as Hbuild' by by eapply build_grows.
  exists out, fs'. unfold main. rewrite Hbuild, Hbuild'.
  split_and!; [done..|].
  destruct (HF1 fuel) as (out' & fs'' & Hrun'' & _); [lia|].
  by exists out', fs''.
Qed.

Lemma dry_run_twice_same_plan_witness :
  ∃ F, ∀ fuel, F ≤ fuel →
    ∃ out fs',
      main fuel downloads true false sample_fs = Ok ((0, ∅), out) fs' ∧
      build_move_plan_for_directory fs' downloads false = inr sample_plans ∧
      ∃ out', ∃ fs'',
        main fuel downloads true false fs' = Ok ((0, ∅), out') fs''.
Proof.
  apply (dry_run_twice_same_plan sample_fs downloads false sample_plans).
  vm_compute. reflexivity.
Defined.

(** The counters of a dry run: whatever the plan, a dry run that returns
    returns [moved_count = 0] and an empty [per_category].  With enough
    fuel the run does return or raise, raising only from the creation of
    a directory, with every entry still in place; and on a plan built for
    a directory of the same file system it returns. *)
Theorem apply_move_plan_dry_run_counters fs plans :
  (∀ fuel c out fs',
     apply_move_plan fuel plans true fs = Ok (c, out) fs' → c = (0, ∅)) ∧
  (∃ F, ∀ fuel, F ≤ fuel →
     match apply_move_plan fuel plans true fs with
     | Ok (c, out) fs' => c = (0, ∅) ∧ length out = length plans
     | Raise _ fs' => grows fs fs'
     | Hang => False
     end) ∧
  (∀ directory include_hidden,
     build_move_plan_for_directory fs directory include_hidden = inr plans →
     ∃ F, ∀ fuel, F ≤ fuel →
       ∃ out fs', apply_move_plan fuel plans true fs = Ok ((0, ∅), out) fs').
Proof.
  unfold apply_move_plan. split_and!.
  - intros fuel c out fs' Hrun.
    pose proof (apply_loop_dry_run fuel plans 0 ∅ [] fs) as Hdry.
    rewrite Hrun in Hdry. by destruct Hdry as [-> _].
  - destruct (apply_loop_settled true plans 0 ∅ [] fs) as (F & r & Hr & HF).
    exists F. intros fuel Hfuel.
    pose proof (apply_loop_dry_run fuel plans 0 ∅ [] fs) as Hdry.
    rewrite (HF fuel Hfuel) in *.
    destruct r as [[c out] fs'|e fs'|]; [|done..].
    by destruct Hdry as (-> & Hlen & _).
  - intros directory include_hidden [Hd ->]%build_inr.
    destruct (apply_loop_dry_run_returns directory
      (plan_children fs directory include_hidden (iterdir fs directory))
      0 ∅ [] fs Hd) as [F HF]; [apply plan_children_parent|].
    exists F. intros fuel Hfuel.
    destruct (HF fuel Hfuel) as (out & fs' & Hrun & _). by exists out, fs'.
Qed.

Lemma apply_move_plan_dry_run_counters_witness :
  ∃ F, ∀ fuel, F ≤ fuel →
    ∃ out fs',
      apply_move_plan fuel sample_plans true sample_fs = Ok ((0, ∅), out) fs'.
Proof.
  destruct (apply_move_plan_dry_run_counters sample_fs sample_plans)
    as (_ & _ & Hbuilt).
  apply (Hbuilt downloads false). vm_compute. reflexivity.
Defined.

(** C9: the code at a plan whose destination lies below a regular file.
    The dry run returns nothing: [ensure_directory], called before
    [dry_run] is tested, raises [NotADirectoryError], although resolving
    the destination, the only other thing a dry run does with the item,
    succeeds. *)
Theorem apply_move_plan_dry_run_raises fuel :
  apply_move_plan fuel [stray_plan] true sample_fs
  = Raise NotADirectoryError sample_fs ∧
  ensure_directory (parent (destination stray_plan)) sample_fs
  = Raise NotADirectoryError sample_fs ∧
  resolve fuel (destination stray_plan) sample_fs
  = Ok (destination stray_plan) sample_fs.
Proof. split_and!; by vm_compute. Qed.

(** C10: when a live run returns, [moved_count] is the sum of the
    per-category counts and the number of plan items; the same holds of
    the run stopped after any number of items. *)
Theorem apply_move_plan_live_counts fuel fs plans moved_count per_category
    out fs' :
  apply_move_plan fuel plans false fs
  = Ok ((moved_count, per_category), out) fs' →
  moved_count = total per_category ∧ moved_count = length plans ∧
  ∀ done_items rest, plans = done_items ++ rest →
    ∃ per_category1 out1 fs1,
      apply_move_plan fuel done_items false fs
      = Ok ((length done_items, per_category1), out1) fs1 ∧
      length done_items = total per_category1.
Proof.
  unfold apply_move_plan. intros Hrun. split_and!.
  - by eapply apply_loop_live_counts.
  - eapply apply_loop_live_counts in Hrun as [_ ->]; [done|].
    by rewrite total_empty.
  - intros pre post ->. rewrite apply_loop_app in Hrun.
    destruct (apply_loop fuel false pre 0 ∅ [] fs)
      as [[[n1 m1] out1] fs1|e fs1|] eqn:Hpre; [|done..].
    apply apply_loop_live_counts in Hpre as Hcounts; [|by rewrite total_empty].
    destruct Hcounts as [Hsum ->]. simpl in *. by exists m1, out1, fs1.
Qed.

(** The live run of the sample directory: five files moved, one per
    category. *)
Lemma apply_move_plan_live_counts_witness :
  5 = total sample_counts ∧ 5 = length sample_plans ∧
  ∀ done_items rest, sample_plans = done_items ++ rest →
    ∃ per_category1 out1 fs1,
      apply_move_plan 1 done_items false sample_fs
      = Ok ((length done_items, per_category1), out1) fs1 ∧
      length done_items = total per_category1.
Proof.
  apply (apply_move_plan_live_counts 1 sample_fs sample_plans 5 sample_counts
           [] sample_fs_organized).
  vm_compute. reflexivity.
Defined.

Example sample_counts_report :
  map_to_list sample_counts
  ≡ₚ [ ("Imagenes", 1); ("Documentos", 1); ("Codigo", 1); ("Otros", 1);
       ("Comprimidos", 1) ].
Proof.
  apply (bool_decide_unpack _). by vm_compute.
Qed.

(** ** Further properties: names and categories *)

(** [stem] and [suffix] split the name: put together again they give it
    back. *)
Lemma stem_suffix p : stem p +:+ suffix p = name p.
Proof.
  unfold stem, suffix. destruct (suffix_index (name p)) as [i|].
  - apply str_take_drop.
  - induction (name p) as [|a s IH]; [done|].
    by rewrite string_app_cons, IH.
Qed.

Lemma candidate_suffix_index destination k i :
  suffix_index (name destination) = Some i →
  suffix_index (name (candidate destination k))
  = Some (String.length (stem destination +:+ " (" +:+ pretty k +:+ ")")).
Proof.
  intros Hi. pose proof Hi as [Hr Hrange]%suffix_index_Some.
  unfold candidate. rewrite name_joinpath.
  assert (suffix destination = Str.drop i (name destination)) as Hsuf.
  { unfold suffix. by rewrite Hi. }
  replace (stem destination +:+ " (" +:+ pretty k +:+ ")"
           +:+ suffix destination)
    with ((stem destination +:+ " (" +:+ pretty k +:+ ")")
          +:+ suffix destination)
    by by rewrite !string_app_assoc.
  set (front := stem destination +:+ " (" +:+ pretty k +:+ ")").
  apply suffix_index_Some. split.
  - by rewrite rfind_app, Hsuf, (rfind_drop _ _ _ Hr), Nat.add_0_r.
  - rewrite string_app_length, Hsuf, str_drop_length.
    assert (2 ≤ String.length front); [|lia].
    unfold front. rewrite !string_app_length. simpl. lia.
Qed.

(** X1: a destination with an extension keeps it under every renaming
    the resolver can choose: the candidate [stem (k).ext] has the suffix
    of the destination, the stem [stem (k)], and is classified in the same
    category. *)
Theorem candidate_keeps_extension destination k :
  suffix destination ≠ "" →
  suffix (candidate destination k) = suffix destination ∧
  stem (candidate destination k)
  = stem destination +:+ " (" +:+ pretty k +:+ ")" ∧
  category (plan_child (parent destination) (candidate destination k))
  = category (plan_child (parent destination) destination).
Proof.
  intros Hsuf.
  destruct (suffix_index (name destination)) as [i|] eqn:Hi;
    [|by unfold suffix in Hsuf; rewrite Hi in Hsuf].
  pose proof (candidate_suffix_index destination k i Hi) as Hc.
  assert (name (candidate destination k)
          = (stem destination +:+ " (" +:+ pretty k +:+ ")")
            +:+ suffix destination) as Hname.
  { unfold candidate. by rewrite name_joinpath, !string_app_assoc. }
  assert (suffix (candidate destination k) = suffix destination) as Hsame.
  { unfold suffix at 1. by rewrite Hc, Hname, str_drop_app. }
  split_and!; [done| |].
  - unfold stem at 1. by rewrite Hc, Hname, str_take_app.
  - unfold plan_child, file_extension. simpl. by rewrite Hsame.
Qed.

Lemma candidate_keeps_extension_witness :
  suffix (candidate (documents </> "report.pdf") 3) = ".pdf" ∧
  stem (candidate (documents </> "report.pdf") 3) = "report (3)" ∧
  category (plan_child documents (candidate (documents </> "report.pdf") 3))
  = "Documentos".
Proof.
  destruct (candidate_keeps_extension (documents </> "report.pdf") 3)
    as (Hsuf & Hstem & Hcat); [by vm_compute|].
  rewrite Hsuf, Hstem. rewrite parent_joinpath in Hcat. rewrite Hcat.
  by vm_compute.
Defined.

(** A name that ends in a dot has no suffix, but its candidates have
    one. *)
Example candidate_of_trailing_dot :
  suffix (documents </> "notes.") = "" ∧
  suffix (candidate (documents </> "notes.") 1) = ". (1)".
Proof. by vm_compute. Qed.

Lemma first_category_range x items :
  first_category x items ∈ DEFAULT_OTHER_CATEGORY :: items.*1.
Proof.
  induction items as [|[c es] items IH]; simpl; [by left|].
  case_bool_decide; [right; by left|].
  apply elem_of_cons in IH as [->|IH]; [by left|by do 2 right].
Qed.

(** X2: classification only ever answers one of the seven category names
    of the table or the default label, so the plan builder only ever
    targets these eight subdirectories of the target directory. *)
Theorem plan_child_category_range directory child :
  category (plan_child directory child)
  ∈ ["Otros"; "Imagenes"; "Documentos"; "Videos"; "Audio"; "Comprimidos";
     "Instaladores"; "Codigo"] ∧
  parent (destination (plan_child directory child))
  = directory </> category (plan_child directory child) ∧
  name (destination (plan_child directory child)) = name child.
Proof.
  split_and!.
  - apply (first_category_range _ CATEGORIES).
  - apply parent_joinpath.
  - apply name_joinpath.
Qed.

(** X3: a file whose name has no dot, or whose only dot comes first (a
    dotfile such as [.zip]), or whose last dot comes last, has no suffix
    and is planned into the default category. *)
Theorem plan_child_without_suffix directory nm :
  Str.rfind "." nm = None ∨ Str.rfind "." nm = Some 0
  ∨ Str.rfind "." nm = Some (String.length nm - 1) →
  suffix (directory </> nm) = "" ∧
  plan_child directory (directory </> nm)
  = {| source := directory </> nm;
       destination := directory </> "Otros" </> nm;
       category := "Otros" |}.
Proof.
  intros Hdot.
  assert (suffix_index nm = None) as Hi.
  { destruct (suffix_index nm) as [i|] eqn:Hi; [|done].
    apply suffix_index_Some in Hi as [Hr Hrange].
    destruct Hdot as [H|[H|H]]; rewrite H in Hr; simplify_eq; lia. }
  assert (suffix (directory </> nm) = "") as Hsuf.
  { unfold suffix. by rewrite name_joinpath, Hi. }
  split; [done|].
  unfold plan_child, file_extension. by rewrite Hsuf, name_joinpath.
Qed.

Lemma plan_child_without_suffix_witness :
  (suffix (downloads </> ".zip") = "" ∧
   plan_child downloads (downloads </> ".zip")
   = {| source := downloads </> ".zip";
        destination := downloads </> "Otros" </> ".zip";
        category := "Otros" |}) ∧
  (suffix (downloads </> "README") = "" ∧
   plan_child downloads (downloads </> "README")
   = {| source := downloads </> "README";
        destination := downloads </> "Otros" </> "README";
        category := "Otros" |}).
Proof.
  split.
  - apply (plan_child_without_suffix downloads ".zip").
    right. left. vm_compute. reflexivity.
  - apply (plan_child_without_suffix downloads "README").
    left. vm_compute. reflexivity.
Defined.

(** ** Further properties: the plan builder *)

Lemma path_parent_name p : p ≠ [] → parent p </> name p = p.
Proof.
  intros Hp. unfold parent, name, joinpath.
  symmetry. by apply app_removelast_last.
Qed.

Lemma iterdir_child fs directory child :
  child ∈ iterdir fs directory →
  child ≠ [] ∧ parent child = directory ∧ path_exists fs child = true.
Proof.
  unfold iterdir. intros [[Hne Hp] Hin]%list_elem_of_filter.
  split_and!; [done..|]. by apply path_exists_elem.
Qed.

Lemma plan_children_sources fs directory include_hidden children :
  plan_children fs directory include_hidden children
  = plan_child directory
    <$> filter (λ child, is_included fs include_hidden child) children.
Proof.
  induction children as [|child children IH]; simpl; [done|].
  rewrite filter_cons, IH.
  destruct (decide (is_included fs include_hidden child)) as [Hi|Hi];
    unfold is_included in Hi.
  - apply Is_true_true, andb_true_iff in Hi as [Hd Hh].
    apply negb_true_iff in Hd. apply negb_true_iff in Hh. by rewrite Hd, Hh.
  - apply Is_true_false, andb_false_iff in Hi as [Hd|Hh].
    + apply negb_false_iff in Hd. by rewrite Hd.
    + apply negb_false_iff in Hh. rewrite Hh. by destruct (is_dir fs child).
Qed.

Lemma build_plan_list fs directory include_hidden plans :
  build_move_plan_for_directory fs directory include_hidden = inr plans →
  plans = plan_child directory
          <$> filter (λ child, is_included fs include_hidden child)
                (iterdir fs directory).
Proof. intros [_ ->]%build_inr. apply plan_children_sources. Qed.

(** X4: every item of a built plan moves a direct child of the target
    directory that exists, is not a directory whatever the flags, and is
    not hidden unless hidden files were asked for; it is sent to
    [directory/category/name], the category being that of its suffix. *)
Theorem build_plan_items fs directory include_hidden plans plan :
  build_move_plan_for_directory fs directory include_hidden = inr plans →
  plan ∈ plans →
  parent (source plan) = directory ∧
  path_exists fs (source plan) = true ∧
  is_dir fs (source plan) = false ∧
  (include_hidden = false → is_hidden_file (source plan) = false) ∧
  category plan = infer_category_from_extension (suffix (source plan)) ∧
  destination plan = directory </> category plan </> name (source plan).
Proof.
  intros Hbuild%build_plan_list Hin. subst plans.
  apply list_elem_of_fmap in Hin as (child & -> & Hin).
  apply list_elem_of_filter in Hin as [Hinc Hin].
  apply iterdir_child in Hin as (Hne & Hp & Hex).
  unfold is_included in Hinc.
  apply Is_true_true, andb_true_iff in Hinc as [Hd Hh].
  apply negb_true_iff in Hd. apply negb_true_iff in Hh.
  split_and!; [done..| | |done].
  - intros ->. by simpl in Hh.
  - simpl. unfold infer_category_from_extension,
      infer_category_from_extension_by, file_extension.
    by rewrite lower_idemp.
Qed.

Lemma build_plan_items_witness :
  parent (downloads </> "notes.txt") = downloads ∧
  path_exists sample_fs (downloads </> "notes.txt") = true ∧
  is_dir sample_fs (downloads </> "notes.txt") = false ∧
  (false = false → is_hidden_file (downloads </> "notes.txt") = false) ∧
  "Documentos" = infer_category_from_extension (suffix (downloads </> "notes.txt")) ∧
  downloads </> "Documentos" </> "notes.txt"
  = downloads </> "Documentos" </> name (downloads </> "notes.txt").
Proof.
  apply (build_plan_items sample_fs downloads false sample_plans
           {| source := downloads </> "notes.txt";
              destination := downloads </> "Documentos" </> "notes.txt";
              category := "Documentos" |}).
  - vm_compute. reflexivity.
  - apply (bool_decide_unpack _). vm_compute. reflexivity.
Defined.

(** X5: a file of the target directory is planned exactly when it is not
    hidden or hidden files were asked for: [.env] is left out without
    [include_hidden] and planned with it. *)
Theorem build_plan_hidden_policy fs directory include_hidden plans nm :
  build_move_plan_for_directory fs directory include_hidden = inr plans →
  stat fs (directory </> nm) = Some File →
  (plan_child directory (directory </> nm) ∈ plans ↔
   include_hidden = true ∨ Str.startswith_dot nm = false) ∧
  ((∃ plan, plan ∈ plans ∧ source plan = directory </> nm) ↔
   include_hidden = true ∨ Str.startswith_dot nm = false).
Proof.
  intros Hbuild Hs. pose proof Hbuild as ->%build_plan_list.
  assert (is_included fs include_hidden (directory </> nm)
          ↔ include_hidden = true ∨ Str.startswith_dot nm = false) as Hinc.
  { unfold is_included, is_dir, is_hidden_file.
    rewrite Hs, name_joinpath. simpl.
    destruct include_hidden, (Str.startswith_dot nm); simpl; split;
      solve [done | by left | by right | by intros [?|?]]. }
  assert ((∃ plan,
             plan ∈ plan_child directory
                    <$> filter (λ child, is_included fs include_hidden child)
                          (iterdir fs directory)
             ∧ source plan = directory </> nm)
          ↔ include_hidden = true ∨ Str.startswith_dot nm = false) as Hsrc.
  { rewrite <-Hinc. split.
    - intros (plan & Hin & Hsrc).
      apply list_elem_of_fmap in Hin as (child & -> & Hin).
      apply list_elem_of_filter in Hin as [Hin _]. simpl in Hsrc. by subst.
    - intros Hin. exists (plan_child directory (directory </> nm)).
      split; [|done]. apply list_elem_of_fmap_2, list_elem_of_filter.
      split; [done|]. by eapply iterdir_elem. }
  split; [|done]. rewrite <-Hsrc. split.
  - intros Hin. by exists (plan_child directory (directory </> nm)).
  - intros (plan & Hin & Hsrc').
    apply list_elem_of_fmap in Hin as (child & -> & Hin).
    simpl in Hsrc'. subst child. by apply list_elem_of_fmap_2.
Qed.

Lemma build_plan_hidden_policy_witness :
  (¬ ∃ plan, plan ∈ [plan_child downloads (downloads </> "notes.txt")]
             ∧ source plan = downloads </> ".env") ∧
  plan_child downloads (downloads </> ".env")
  ∈ plan_child downloads
    <$> [downloads </> ".env"; downloads </> "notes.txt"; downloads </> ".zip"].
Proof.
  split.
  - destruct (build_plan_hidden_policy hidden_fs downloads false
      [plan_child downloads (downloads </> "notes.txt")] ".env")
      as [_ Hsrc]; [vm_compute; reflexivity..|].
    rewrite Hsrc. intros [H|H]; vm_compute in H; discriminate H.
  - apply (build_plan_hidden_policy hidden_fs downloads true
      (plan_child downloads
       <$> [downloads </> ".env"; downloads </> "notes.txt";
            downloads </> ".zip"]) ".env");
      [vm_compute; reflexivity..|].
    left. reflexivity.
Defined.

(** X6: when no path is listed twice, the items of a built plan have
    pairwise distinct sources and pairwise distinct planned destinations.
    (Where an item ends up is settled by the resolver when the item is
    applied, and can differ from the planned destination.) *)
Theorem build_plan_no_duplicates fs directory include_hidden plans :
  build_move_plan_for_directory fs directory include_hidden = inr plans →
  NoDup fs.*1 →
  NoDup (source <$> plans) ∧ NoDup (destination <$> plans).
Proof.
  intros Hbuild%build_plan_list Hnd. subst plans.
  set (children := filter (λ child, is_included fs include_hidden child)
                     (iterdir fs directory)).
  assert (NoDup children) as Hch.
  { apply NoDup_filter. unfold iterdir. by apply NoDup_filter. }
  assert (∀ child, child ∈ children →
            child ≠ [] ∧ parent child = directory) as Hchild.
  { intros child [_ Hin]%list_elem_of_filter.
    by apply iterdir_child in Hin as (? & ? & _). }
  rewrite <-!list_fmap_compose. split.
  - apply NoDup_fmap_2_strong; [|done]. by intros x y _ _ Heq.
  - apply NoDup_fmap_2_strong; [|done]. intros x y Hx Hy Heq. simpl in Heq.
    apply (f_equal name) in Heq. rewrite !name_joinpath in Heq.
    destruct (Hchild x Hx) as [Hxne Hxp], (Hchild y Hy) as [Hyne Hyp].
    rewrite <-(path_parent_name x), <-(path_parent_name y) by done.
    by rewrite Hxp, Hyp, Heq.
Qed.

Lemma build_plan_no_duplicates_witness :
  NoDup (source <$> sample_plans) ∧ NoDup (destination <$> sample_plans).
Proof.
  apply (build_plan_no_duplicates sample_fs downloads false sample_plans).
  - vm_compute. reflexivity.
  - apply (bool_decide_unpack _). vm_compute. reflexivity.
Defined.

(** ** Further properties: the executor *)

Section more_executor_facts.
Implicit Types fs : filesystem.
Implicit Types p src dst : path.

Lemma os_mkdir_Ok p fs fs' :
  os_mkdir p fs = Ok () fs' → path_exists fs' p = true.
Proof.
  unfold os_mkdir.
  destruct (path_exists fs p) eqn:Hp; [done|].
  destruct (negb (path_exists fs (parent p))); [done|].
  destruct (negb (is_dir fs (parent p))); [done|].
  intros [= <-]. apply path_exists_elem. rewrite fmap_app.
  apply elem_of_app. right. by left.
Qed.

Lemma is_dir_exists fs p : is_dir fs p = true → path_exists fs p = true.
Proof. unfold is_dir, path_exists. by destruct (stat fs p). Qed.

Lemma mkdir_exist_ok_Ok p fs fs' :
  mkdir_exist_ok p fs = Ok () fs' → path_exists fs' p = true.
Proof.
  unfold mkdir_exist_ok.
  destruct (os_mkdir p fs) as [[] fs1|e fs1|] eqn:Hmk; [| |done].
  - intros [= <-]. by eapply os_mkdir_Ok.
  - destruct e; try done; destruct (is_dir fs1 p) eqn:Hd; try done;
      intros [= <-]; by apply is_dir_exists.
Qed.

Lemma mkdir_parents_Ok depth p fs fs' :
  mkdir_parents depth p fs = Ok () fs' → path_exists fs' p = true.
Proof.
  destruct depth as [|depth]; simpl;
    (destruct (os_mkdir p fs) as [[] fs1|e fs1|] eqn:Hmk; [| |done];
     [intros [= <-]; by eapply os_mkdir_Ok|]);
    destruct e; try done;
    try (destruct (is_dir fs1 p) eqn:Hd; try done;
         intros [= <-]; by apply is_dir_exists).
  - by case_bool_decide.
  - case_bool_decide; [done|]. unfold bind.
    destruct (mkdir_parents depth (parent p) fs1) as [[] fs2| |]; [|done..].
    apply mkdir_exist_ok_Ok.
Qed.

Lemma ensure_directory_Ok p fs fs' :
  ensure_directory p fs = Ok () fs' →
  path_exists fs' p = true ∧ grows fs fs'.
Proof.
  intros Hens. pose proof (ensure_directory_settles p fs) as Hs.
  rewrite Hens in Hs. split; [|done].
  unfold ensure_directory in Hens.
  destruct (path_exists fs p) eqn:Hp; simpl in Hens.
  - by injection Hens as <-.
  - by eapply mkdir_parents_Ok.
Qed.

Lemma resolve_Ok fuel destination fs u fs' :
  resolve fuel destination fs = Ok u fs' →
  fs' = fs ∧ path_exists fs u = false ∧ parent u = parent destination ∧
  (u = destination ∨ ∃ k, u = candidate destination k).
Proof.
  unfold resolve, generate_unique_destination_path.
  destruct (path_exists fs destination) eqn:He; simpl.
  - destruct (unique_loop _ _ _ _) as [r|] eqn:Hloop; [|done].
    intros [= <- <-].
    apply unique_loop_Some in Hloop as (k & _ & -> & Hr & _).
    split_and!; [done..|apply parent_joinpath|right; by eexists].
  - intros [= <- <-]. split_and!; [done..|by left].
Qed.

Lemma filter_all {A} (P : A → Prop) `{!∀ x, Decision (P x)} (l : list A) :
  Forall P l → filter P l = l.
Proof.
  induction 1 as [|x l Hx _ IH]; [done|].
  by rewrite filter_cons_True, IH.
Qed.

Lemma filter_none {A} (P : A → Prop) `{!∀ x, Decision (P x)} (l : list A) :
  Forall (λ x, ¬ P x) l → filter P l = [].
Proof.
  induction 1 as [|x l Hx _ IH]; [done|].
  by rewrite filter_cons_False.
Qed.

Lemma filter_absent dst fs :
  path_exists fs dst = false →
  filter (λ e : path * kind, e.1 ≠ dst) fs = fs.
Proof.
  intros Hd. apply filter_all, Forall_forall. intros [q k] Hin Heq.
  simpl in Heq. subst dst.
  assert (path_exists fs q = true); [|congruence].
  apply path_exists_elem, list_elem_of_fmap. by exists (q, k).
Qed.

(** Renaming onto a path that does not exist keeps every entry and its
    kind. *)
Lemma relocate_kinds src dst fs :
  path_exists fs dst = false → (relocate src dst fs).*2 = fs.*2.
Proof.
  intros Hd. unfold relocate. case_bool_decide; [done|].
  rewrite filter_absent by done. rewrite <-list_fmap_compose.
  apply list_fmap_ext. intros _ [q k] _. simpl. by case_bool_decide.
Qed.

Lemma grows_file_count fs fs' : grows fs fs' → file_count fs' = file_count fs.
Proof.
  intros (extra & -> & Hextra). unfold file_count.
  rewrite fmap_app, filter_app, length_app.
  rewrite (filter_none _ extra.*2); [simpl; lia|].
  apply Forall_fmap. eapply Forall_impl; [done|].
  intros [q k] [Hk _]. simpl in *. by subst.
Qed.

Lemma grows_length fs fs' : grows fs fs' → length fs ≤ length fs'.
Proof. intros (extra & -> & _). rewrite length_app. lia. Qed.

(** [shutil.move] onto a path that does not exist, in a directory that
    does: the rename happens or the call raises with nothing changed. *)
Lemma shutil_move_fresh src dst fs :
  path_exists fs dst = false → path_exists fs (parent dst) = true →
  shutil_move src dst fs = Ok () (relocate src dst fs)
  ∨ ∃ e, shutil_move src dst fs = Raise e fs.
Proof.
  intros Hd Hp. unfold shutil_move.
  assert (is_dir fs dst = false) as ->.
  { destruct (is_dir fs dst) eqn:H; [|done].
    apply is_dir_exists in H. congruence. }
  simpl. rewrite Hd, Hp.
  destruct (stat fs src) as [[]|]; [..|right; by eexists].
  - destruct (is_dir fs (parent dst)); [by left|right; by eexists].
  - case_bool_decide; [right; by eexists|].
    destruct (is_dir fs (parent dst)); [by left|right; by eexists].
Qed.

Lemma relocate_length src dst fs :
  path_exists fs dst = false → length (relocate src dst fs) = length fs.
Proof.
  intros Hd. rewrite <-(length_fmap snd), relocate_kinds by done.
  by rewrite length_fmap.
Qed.

(** Whatever the plan and the mode, no step of the loop drops or replaces
    an entry. *)
Lemma apply_loop_file_count fuel dry_run plans moved_count per_category out fs :
  match apply_loop fuel dry_run plans moved_count per_category out fs with
  | Ok _ fs' | Raise _ fs' =>
      file_count fs' = file_count fs ∧ length fs ≤ length fs'
  | Hang => True
  end.
Proof.
  revert moved_count per_category out fs.
  induction plans as [|plan rest IH]; intros n m out fs; [done|].
  rewrite apply_loop_cons.
  destruct (ensure_directory _ fs) as [[] fs1|e fs1|] eqn:Hens.
  - apply ensure_directory_Ok in Hens as [Hp Hg].
    pose proof (grows_file_count _ _ Hg) as Hc1.
    pose proof (grows_length _ _ Hg) as Hl1.
    destruct (resolve _ _ fs1) as [u fs2|e fs2|] eqn:Hres; [| |done].
    2:{ unfold resolve in Hres.
        by destruct (generate_unique_destination_path _ _ _). }
    apply resolve_Ok in Hres as (-> & Hu & Hpu & _).
    destruct dry_run.
    + specialize (IH n m (out ++ [DryRunLine (name (source plan))
        (name (parent (destination plan))) (name u)]) fs1).
      destruct (apply_loop _ _ rest _ _ _ fs1) as [? fs'|? fs'|]; [| |done];
        (destruct IH; split; [congruence|lia]).
    + destruct (shutil_move_fresh (source plan) u fs1 Hu) as [Hmv|[e Hmv]];
        [by rewrite Hpu|..]; rewrite Hmv; [|split; [done|lia]].
      specialize (IH (n + 1)
        (<[category plan := default 0 (m !! category plan) + 1]> m) out
        (relocate (source plan) u fs1)).
      assert (file_count (relocate (source plan) u fs1) = file_count fs1) as Hc2.
      { unfold file_count. by rewrite relocate_kinds. }
      pose proof (relocate_length (source plan) u fs1 Hu) as Hl2.
      destruct (apply_loop _ _ rest _ _ _ _) as [? fs'|? fs'|]; [| |done];
        (destruct IH; split; [congruence|lia]).
  - pose proof (ensure_directory_settles (parent (destination plan)) fs) as Hs.
    rewrite Hens in Hs.
    split; [by apply grows_file_count|by apply grows_length].
  - done.
Qed.
End more_executor_facts.

(** X7: when [ensure_directory] returns, the path exists, nothing that
    was listed has gone or moved, an existing path (directory or not)
    left the file system as it was, and a second call changes nothing. *)
Theorem ensure_directory_idempotent p fs fs' :
  ensure_directory p fs = Ok () fs' →
  path_exists fs' p = true ∧ grows fs fs' ∧
  (path_exists fs p = true → fs' = fs) ∧
  ensure_directory p fs' = Ok () fs'.
Proof.
  intros Hens. pose proof Hens as [Hp Hg]%ensure_directory_Ok.
  split_and!; [done..| |].
  - intros He. unfold ensure_directory in Hens. rewrite He in Hens.
    by injection Hens.
  - unfold ensure_directory. by rewrite Hp.
Qed.

Lemma ensure_directory_idempotent_witness :
  path_exists (sample_fs ++ [(["home"; "a"], Dir); (["home"; "a"; "b"], Dir)])
    ["home"; "a"; "b"] = true ∧
  grows sample_fs
    (sample_fs ++ [(["home"; "a"], Dir); (["home"; "a"; "b"], Dir)]) ∧
  (path_exists sample_fs ["home"; "a"; "b"] = true →
   sample_fs ++ [(["home"; "a"], Dir); (["home"; "a"; "b"], Dir)]
   = sample_fs) ∧
  ensure_directory ["home"; "a"; "b"]
    (sample_fs ++ [(["home"; "a"], Dir); (["home"; "a"; "b"], Dir)])
  = Ok () (sample_fs ++ [(["home"; "a"], Dir); (["home"; "a"; "b"], Dir)]).
Proof.
  apply (ensure_directory_idempotent ["home"; "a"; "b"] sample_fs).
  vm_compute. reflexivity.
Defined.

(** X8: no run of the executor, dry or live, returning or raising,
    deletes or overwrites anything: the number of files listed is the
    same afterwards and no entry is dropped.  With enough fuel the run
    does return or raise. *)
Theorem apply_move_plan_keeps_files plans dry_run fs :
  (∀ fuel,
     match apply_move_plan fuel plans dry_run fs with
     | Ok _ fs' | Raise _ fs' =>
         file_count fs' = file_count fs ∧ length fs ≤ length fs'
     | Hang => True
     end) ∧
  ∃ F, ∀ fuel, F ≤ fuel → apply_move_plan fuel plans dry_run fs ≠ Hang.
Proof.
  split.
  - intros fuel. apply apply_loop_file_count.
  - destruct (apply_loop_settled dry_run plans 0 ∅ [] fs)
      as (F & r & Hr & HF).
    exists F. intros fuel Hfuel. unfold apply_move_plan. by rewrite HF.
Qed.

(** X9: [ensure_directory] accepts a category path that exists as a
    file; the live run then stops at that item with [NotADirectoryError],
    having changed nothing. *)
Theorem apply_move_plan_category_is_file fuel plan rest fs :
  stat fs (parent (destination plan)) = Some File →
  stat fs (source plan) = Some File →
  length fs < fuel →
  ensure_directory (parent (destination plan)) fs = Ok () fs ∧
  apply_move_plan fuel (plan :: rest) false fs = Raise NotADirectoryError fs.
Proof.
  intros Hp Hs Hfuel.
  assert (path_exists fs (parent (destination plan)) = true) as Hpe.
  { unfold path_exists. by rewrite Hp. }
  assert (ensure_directory (parent (destination plan)) fs = Ok () fs) as Hens.
  { unfold ensure_directory. by rewrite Hpe. }
  split; [done|].
  destruct (resolve_returns fs (destination plan)) as (u & _ & Hres).
  specialize (Hres fuel Hfuel).
  pose proof Hres as (_ & Hu & Hpu & _)%resolve_Ok.
  unfold apply_move_plan. rewrite apply_loop_cons, Hens, Hres.
  unfold shutil_move.
  assert (is_dir fs u = false) as ->.
  { destruct (is_dir fs u) eqn:H; [|done].
    apply is_dir_exists in H. congruence. }
  simpl. rewrite Hs, Hpu, Hpe. unfold is_dir. by rewrite Hp.
Qed.

Lemma apply_move_plan_category_is_file_witness :
  ensure_directory (downloads </> "Documentos") clash_fs = Ok () clash_fs ∧
  apply_move_plan 6
    [plan_child downloads (downloads </> "notes.txt");
     plan_child downloads (downloads </> "Documentos")] false clash_fs
  = Raise NotADirectoryError clash_fs.
Proof.
  apply (apply_move_plan_category_is_file 6
           (plan_child downloads (downloads </> "notes.txt"))
           [plan_child downloads (downloads </> "Documentos")] clash_fs).
  - vm_compute. reflexivity.
  - vm_compute. reflexivity.
  - vm_compute. lia.
Defined.

Lemma apply_loop_dry_run_unchanged fuel plans moved_count per_category out fs :
  Forall (λ plan, path_exists fs (parent (destination plan)) = true) plans →
  length fs < fuel →
  apply_loop fuel true plans moved_count per_category out fs
  = Ok ((moved_count, per_category), out ++ (preview fs fuel <$> plans)) fs.
Proof.
  intros Hplans Hfuel. revert out.
  induction Hplans as [|plan rest Hp _ IH]; intros out.
  { simpl. by rewrite app_nil_r. }
  rewrite apply_loop_cons. unfold ensure_directory. rewrite Hp. simpl.
  destruct (resolve_returns fs (destination plan)) as (u & _ & Hres).
  rewrite (Hres fuel Hfuel), IH, <-app_assoc. do 3 f_equal.
  unfold preview. specialize (Hres fuel Hfuel). unfold resolve in Hres.
  destruct (generate_unique_destination_path _ _ _) as [u'|]; [|done].
  by injection Hres as ->.
Qed.

(** X10: when the category directory of every item already exists, the
    dry run returns with the file system exactly as it was, and each line
    shows the name the resolver picks in that unchanged file system, so
    items with the same destination are shown the same name. *)
Theorem dry_run_unchanged_when_directories_exist fuel plans fs :
  Forall (λ plan, path_exists fs (parent (destination plan)) = true) plans →
  length fs < fuel →
  apply_move_plan fuel plans true fs
  = Ok ((0, ∅), preview fs fuel <$> plans) fs.
Proof.
  intros Hplans Hfuel. unfold apply_move_plan.
  by rewrite apply_loop_dry_run_unchanged.
Qed.

Lemma dry_run_unchanged_when_directories_exist_witness :
  apply_move_plan 9 collision_plans true collision_fs
  = Ok ((0, ∅),
        [ DryRunLine "report.pdf" "Documentos" "report (1).pdf";
          DryRunLine "report.pdf" "Documentos" "report (1).pdf" ])
      collision_fs.
Proof.
  rewrite (dry_run_unchanged_when_directories_exist 9 collision_plans
             collision_fs).
  - vm_compute. reflexivity.
  - apply (bool_decide_unpack _). vm_compute. reflexivity.
  - vm_compute. lia.
Defined.

Lemma apply_loop_per_category fuel plans moved_count per_category out fs
    n' m' out' fs' :
  apply_loop fuel false plans moved_count per_category out fs
  = Ok ((n', m'), out') fs' →
  (∀ c v, per_category !! c = Some v → 0 < v) →
  out' = out ∧
  (∀ c v, m' !! c = Some v → 0 < v) ∧
  ∀ c, default 0 (m' !! c)
       = default 0 (per_category !! c) + planned_in c plans.
Proof.
  revert moved_count per_category fs.
  induction plans as [|plan rest IH]; intros n m fs.
  { simpl. intros [= <- <- <- <-] Hpos. split_and!; [done..|].
    intros c. unfold planned_in. simpl. lia. }
  rewrite apply_loop_cons.
  destruct (ensure_directory _ fs) as [? fs1| |]; [|done..].
  destruct (resolve _ _ fs1) as [u fs2| |]; [|done..].
  destruct (shutil_move _ _ fs2) as [? fs3| |]; [|done..].
  intros Hrun Hpos. apply IH in Hrun as (-> & Hpos' & Hcount).
  - split_and!; [done..|]. intros c. rewrite Hcount.
    unfold planned_in. rewrite filter_cons.
    destruct (decide (category plan = c)) as [->|Hne].
    + rewrite lookup_insert_eq. simpl. lia.
    + by rewrite lookup_insert_ne.
  - intros c v. destruct (decide (category plan = c)) as [->|Hne].
    + rewrite lookup_insert_eq. intros [= <-]. lia.
    + rewrite lookup_insert_ne by done. apply Hpos.
Qed.

(** X11: when a live run returns, [per_category] maps each category to
    the number of plan items of that category, has no entry for a
    category without items, and nothing was printed. *)
Theorem apply_move_plan_per_category fuel plans fs moved_count per_category
    out fs' :
  apply_move_plan fuel plans false fs
  = Ok ((moved_count, per_category), out) fs' →
  out = [] ∧
  ∀ c, per_category !! c
       = if decide (planned_in c plans = 0) then None
         else Some (planned_in c plans).
Proof.
  intros Hrun. apply apply_loop_per_category in Hrun as (-> & Hpos & Hcount).
  2:{ intros c v. by rewrite lookup_empty. }
  split; [done|]. intros c. specialize (Hcount c).
  rewrite lookup_empty in Hcount. simpl in Hcount.
  destruct (per_category !! c) as [v|] eqn:Hc; simpl in Hcount.
  - apply Hpos in Hc. rewrite <-Hcount. by rewrite decide_False by lia.
  - by rewrite decide_True by lia.
Qed.

Lemma apply_move_plan_per_category_witness :
  [] = @nil message ∧
  ∀ c, ({[ "Documentos" := 2 ]} : gmap string nat) !! c
       = if decide (planned_in c collision_plans = 0) then None
         else Some (planned_in c collision_plans).
Proof.
  apply (apply_move_plan_per_category 3 collision_plans collision_fs 2
           {[ "Documentos" := 2 ]} []
           [ ([], Dir); (["home"], Dir); (downloads, Dir); (documents, Dir);
             (documents </> "report.pdf", File);
             (documents </> "report (1).pdf", File);
             (["home"; "inbox"], Dir);
             (documents </> "report (2).pdf", File) ]).
  vm_compute. reflexivity.
Defined.

(** ** Further properties: a whole live run *)

Section live_run_facts.
Implicit Types fs : filesystem.
Implicit Types d src dst q child : path.

Lemma child_length d q : q ≠ [] → parent q = d → length q = S (length d).
Proof.
  intros Hq <-. rewrite <-(path_parent_name q) at 1 by done.
  unfold joinpath. rewrite length_app. simpl. lia.
Qed.

Lemma prefix_same_length src q :
  src `prefix_of` q → length src = length q → src = q.
Proof.
  intros [rest ->] Hlen. rewrite length_app in Hlen.
  destruct rest; [by rewrite app_nil_r|simpl in Hlen; lia].
Qed.

(** Paths outside [src] and outside [dst] are not touched by a rename. *)
Lemma stat_relocate_other src dst fs q :
  path_exists fs dst = false →
  ¬ src `prefix_of` q → ¬ dst `prefix_of` q →
  stat (relocate src dst fs) q = stat fs q.
Proof.
  intros Hd Hsrc Hdst. unfold relocate. case_bool_decide; [done|].
  rewrite filter_absent by done. clear Hd.
  induction fs as [|[p k] fs IH]; [done|]. csimpl.
  case_bool_decide as Hp; csimpl.
  - rewrite !bool_decide_eq_false_2; [done| |].
    + intros <-. by destruct Hsrc.
    + intros <-. destruct Hdst. by apply prefix_app_r.
  - by rewrite IH.
Qed.

(** After a child of [d] has been renamed to a path two levels below
    [d], the children of [d] are the others, in the same order. *)
Lemma iterdir_relocate d src dst fs :
  path_exists fs dst = false → src ≠ dst →
  length src = S (length d) → length dst = S (S (length d)) →
  iterdir (relocate src dst fs) d = filter (λ q, q ≠ src) (iterdir fs d).
Proof.
  intros Hd Hne Hsrc Hdst. unfold relocate.
  rewrite bool_decide_eq_false_2 by done.
  rewrite filter_absent by done. clear Hd. unfold iterdir.
  induction fs as [|[p k] fs IH]; [done|].
  csimpl. rewrite !filter_cons.
  case_bool_decide as Hp; csimpl.
  - rewrite decide_False.
    2:{ intros [Hq Hpar]. apply child_length in Hpar; [|done].
        rewrite length_app in Hpar. lia. }
    case_decide as Hc; [|exact IH]. destruct Hc as [Hq Hpar].
    rewrite filter_cons_False; [exact IH|]. intros Hps. apply Hps.
    symmetry. apply prefix_same_length; [done|].
    apply child_length in Hpar; [lia|done].
  - destruct (decide (p ≠ [] ∧ parent p = d)) as [Hc|Hc].
    + rewrite !decide_True by done.
      rewrite filter_cons_True; [|by intros ->]. f_equal. exact IH.
    + rewrite !decide_False by done. exact IH.
Qed.

Lemma grows_iterdir fs fs' d child :
  grows fs fs' → child ∈ iterdir fs' d →
  (child ∈ iterdir fs d ∧ is_dir fs' child = is_dir fs child)
  ∨ is_dir fs' child = true.
Proof.
  intros (extra & -> & Hextra). unfold iterdir.
  rewrite fmap_app, filter_app, elem_of_app. intros [Hin|Hin].
  - left. split; [done|]. apply list_elem_of_filter in Hin as [_ Hin].
    unfold is_dir. rewrite stat_app.
    destruct (stat fs child) eqn:Hs; [done|].
    apply stat_None in Hs. by destruct Hs.
  - right. apply list_elem_of_filter in Hin as [_ Hin].
    apply list_elem_of_fmap in Hin as ([q k] & -> & Hin).
    rewrite Forall_forall in Hextra.
    destruct (Hextra _ Hin) as [_ Hnew]. simpl in *.
    unfold is_dir. rewrite stat_app, Hnew.
    destruct (stat extra q) as [k'|] eqn:Hs.
    + rewrite (stat_all_dirs extra q k'); [done| |done].
      eapply Forall_impl; [apply Forall_forall, Hextra|]. by intros ? [].
    + apply stat_None in Hs. destruct Hs.
      apply list_elem_of_fmap. by exists (q, k).
Qed.

Lemma grows_not_file fs fs' q :
  grows fs fs' → stat fs q ≠ Some File → stat fs' q ≠ Some File.
Proof.
  intros (extra & -> & Hextra) Hq. rewrite stat_app.
  destruct (stat fs q) as [k|]; [done|].
  intros Hs. apply stat_all_dirs in Hs; [done|].
  eapply Forall_impl; [done|]. by intros ? [].
Qed.

Lemma resolved_length d c u :
  parent u = d </> c → u ≠ [] ∧ length u = S (S (length d)).
Proof.
  intros Hp. assert (u ≠ []) as Hu.
  { intros ->. symmetry in Hp. by apply joinpath_nonempty in Hp. }
  split; [done|]. rewrite (child_length (d </> c) u) by done.
  unfold joinpath. rewrite length_app. simpl. lia.
Qed.
End live_run_facts.

Section rerun_facts.
Implicit Types fs : filesystem.
Implicit Types d child : path.

Lemma is_included_ext fs fs' include_hidden child :
  is_dir fs' child = is_dir fs child →
  is_included fs' include_hidden child = is_included fs include_hidden child.
Proof. unfold is_included. by intros ->. Qed.

Lemma build_plan_shaped fs d include_hidden plans :
  build_move_plan_for_directory fs d include_hidden = inr plans →
  Forall (shaped d) plans ∧
  ∀ child, child ∈ iterdir fs d →
    is_included fs include_hidden child = true → child ∈ source <$> plans.
Proof.
  intros ->%build_plan_list. split.
  - apply Forall_fmap, Forall_forall. intros child [_ Hin]%list_elem_of_filter.
    apply iterdir_child in Hin as (Hne & Hp & _).
    split_and!; [done..|]. eexists. apply parent_joinpath.
  - intros child Hin Hinc. rewrite <-list_fmap_compose.
    apply list_elem_of_fmap. exists child. split; [done|].
    apply list_elem_of_filter. split; [|done]. by apply Is_true_true.
Qed.

(** The move of one shaped item, seen from the directory [d]. *)
Lemma apply_step_relocates d plan fs fs1 u fs3 :
  shaped d plan →
  ensure_directory (parent (destination plan)) fs = Ok () fs1 →
  path_exists fs1 u = false → parent u = parent (destination plan) →
  shutil_move (source plan) u fs1 = Ok () fs3 →
  fs3 = relocate (source plan) u fs1 ∧
  length (source plan) = S (length d) ∧ length u = S (S (length d)) ∧
  ∀ q, length q ≤ S (length d) → q ≠ source plan →
       stat fs3 q = stat fs1 q.
Proof.
  intros (Hne & Hpar & c & Hc) Hens Hu Hpu Hmv.
  apply ensure_directory_Ok in Hens as [Hpe _].
  destruct (shutil_move_fresh (source plan) u fs1 Hu) as [Hok|[e Hraise]];
    [by rewrite Hpu|..|congruence].
  rewrite Hok in Hmv. injection Hmv as <-.
  rewrite Hc in Hpu. apply resolved_length in Hpu as [_ Hlu].
  pose proof (child_length d _ Hne Hpar) as Hls.
  split_and!; [done..|]. intros q Hq Hqs.
  apply stat_relocate_other; [done|..].
  - intros Hpre. apply Hqs. symmetry. apply prefix_same_length; [done|].
    apply prefix_length in Hpre. lia.
  - intros Hpre%prefix_length. lia.
Qed.

Lemma apply_loop_leaves_nothing d include_hidden fuel plans moved_count
    per_category out fs r fs' :
  Forall (shaped d) plans →
  is_dir fs d = true →
  (∀ child, child ∈ iterdir fs d →
     is_included fs include_hidden child = true → child ∈ source <$> plans) →
  apply_loop fuel false plans moved_count per_category out fs = Ok r fs' →
  is_dir fs' d = true ∧
  ∀ child, child ∈ iterdir fs' d →
    is_included fs' include_hidden child = false.
Proof.
  intros Hshaped. revert moved_count per_category out fs.
  induction Hshaped as [|plan rest Hplan _ IH]; intros n m out fs Hd Hinv.
  { simpl. intros [= <- <-]. split; [done|]. intros child Hin.
    destruct (is_included fs include_hidden child) eqn:Hinc; [|done].
    by apply Hinv, elem_of_nil in Hinc. }
  rewrite apply_loop_cons.
  destruct (ensure_directory _ fs) as [[] fs1| |] eqn:Hens; [|done..].
  destruct (resolve _ _ fs1) as [u fs2| |] eqn:Hres; [|done..].
  apply resolve_Ok in Hres as (-> & Hu & Hpu & _).
  destruct (shutil_move _ _ fs1) as [[] fs3| |] eqn:Hmv; [|done..].
  destruct (apply_step_relocates d plan fs fs1 u fs3)
    as (-> & Hls & Hlu & Hstat); [done..|].
  pose proof Hens as [_ Hg]%ensure_directory_Ok.
  apply IH.
  - unfold is_dir. rewrite Hstat; [by apply (grows_is_dir fs)|lia|].
    intros Heq. rewrite <-Heq in Hls. lia.
  - intros child Hin Hinc.
    rewrite (iterdir_relocate d) in Hin; [|done| |done..].
    2:{ intros Heq. rewrite <-Heq in Hlu. lia. }
    apply list_elem_of_filter in Hin as [Hcs Hin].
    pose proof Hin as (Hcne & Hcp & _)%iterdir_child.
    pose proof (child_length d child Hcne Hcp) as Hlc.
    rewrite (is_included_ext fs1) in Hinc.
    2:{ unfold is_dir. by rewrite Hstat by (done || lia). }
    destruct (grows_iterdir fs fs1 d child Hg Hin) as [[Hin0 Hsame]|Hdir].
    + rewrite (is_included_ext fs) in Hinc by done.
      specialize (Hinv child Hin0 Hinc). rewrite fmap_cons in Hinv.
      by apply elem_of_cons in Hinv as [?|?].
    + unfold is_included in Hinc. by rewrite Hdir in Hinc.
Qed.

(** X12: after a live run that returned, nothing is left to organise:
    the plan built for the same directory with the same flag is empty, so
    a second run, dry or live, moves nothing and changes nothing. *)
Theorem live_run_leaves_empty_plan fuel d include_hidden fs r fs' :
  main fuel d false include_hidden fs = Ok r fs' →
  build_move_plan_for_directory fs' d include_hidden = inr [] ∧
  ∀ fuel' dry_run,
    main fuel' d dry_run include_hidden fs' = Ok ((0, ∅), []) fs'.
Proof.
  unfold main.
  destruct (build_move_plan_for_directory fs d include_hidden)
    as [|plans] eqn:Hbuild; [done|].
  intros Hrun. pose proof Hbuild as [Hd _]%build_inr.
  destruct (build_plan_shaped _ _ _ _ Hbuild) as [Hshaped Hinv].
  destruct (apply_loop_leaves_nothing d include_hidden fuel plans 0 ∅ [] fs
              r fs' Hshaped Hd Hinv Hrun) as [Hd' Hnone].
  assert (build_move_plan_for_directory fs' d include_hidden = inr [])
    as Hbuild'.
  { apply build_inr. split; [done|]. rewrite plan_children_sources.
    rewrite filter_none; [done|]. apply Forall_forall. intros child Hin.
    rewrite (Hnone child Hin). by intros []. }
  split; [done|]. intros fuel' dry_run. by rewrite Hbuild'.
Qed.

Lemma live_run_leaves_empty_plan_witness :
  build_move_plan_for_directory sample_fs_organized downloads false = inr [] ∧
  ∀ fuel' dry_run,
    main fuel' downloads dry_run false sample_fs_organized
    = Ok ((0, ∅), []) sample_fs_organized.
Proof.
  apply (live_run_leaves_empty_plan 1 downloads false sample_fs
           ((5, sample_counts), [])).
  vm_compute. reflexivity.
Defined.
End rerun_facts.

Section live_success_facts.
Implicit Types fs : filesystem.
Implicit Types d src dst : path.

Lemma ensure_directory_child_dir d c fs :
  is_dir fs d = true → stat fs (d </> c) ≠ Some File →
  ∃ fs', ensure_directory (d </> c) fs = Ok () fs' ∧ grows fs fs' ∧
         is_dir fs' (d </> c) = true.
Proof.
  intros Hd Hc.
  destruct (ensure_directory_child d c fs Hd) as (fs' & Hens & Hg & _).
  exists fs'. split_and!; [done..|].
  destruct (stat fs (d </> c)) as [[]|] eqn:Hs; [done| |].
  - apply (grows_is_dir fs); [done|]. unfold is_dir. by rewrite Hs.
  - unfold ensure_directory, path_exists in Hens. rewrite Hs in Hens.
    simpl in Hens. unfold Path_mkdir in Hens.
    assert (os_mkdir (d </> c) fs = Ok () (fs ++ [(d </> c, Dir)])) as Hmk.
    { unfold os_mkdir, path_exists. rewrite Hs, parent_joinpath, Hd. simpl.
      unfold is_dir in Hd. by destruct (stat fs d) as [[]|]. }
    destruct (length (d </> c)); simpl in Hens; rewrite Hmk in Hens;
      injection Hens as <-; unfold is_dir; rewrite stat_app, Hs; simpl;
      by rewrite bool_decide_eq_true_2.
Qed.

Lemma shutil_move_file src dst fs :
  stat fs src = Some File → path_exists fs dst = false →
  is_dir fs (parent dst) = true →
  shutil_move src dst fs = Ok () (relocate src dst fs).
Proof.
  intros Hs Hd Hp. unfold shutil_move.
  assert (is_dir fs dst = false) as ->.
  { destruct (is_dir fs dst) eqn:H; [|done].
    apply is_dir_exists in H. congruence. }
  simpl. by rewrite Hs, Hp.
Qed.

Lemma apply_loop_live_returns d plans moved_count per_category out fs :
  Forall (shaped d) plans → NoDup (source <$> plans) →
  is_dir fs d = true →
  (∀ plan, plan ∈ plans → stat fs (source plan) = Some File) →
  (∀ plan, plan ∈ plans →
     stat fs (parent (destination plan)) ≠ Some File) →
  ∃ F, ∀ fuel, F ≤ fuel →
    ∃ r fs',
      apply_loop fuel false plans moved_count per_category out fs = Ok r fs'.
Proof.
  intros Hshaped. revert moved_count per_category out fs.
  induction Hshaped as [|plan rest Hplan Hrest IH];
    intros n m out fs Hnd Hd Hsrc Hcat.
  { exists 0. intros fuel _. by eexists _, _. }
  rewrite fmap_cons in Hnd. apply NoDup_cons in Hnd as [Hfresh Hnd].
  pose proof Hplan as (Hne & Hpar & c & Hc).
  destruct (ensure_directory_child_dir d c fs Hd) as (fs1 & Hens & Hg & Hdc).
  { rewrite <-Hc. apply Hcat. by left. }
  rewrite <-Hc in Hens, Hdc.
  destruct (resolve_returns fs1 (destination plan)) as (u & _ & Hres).
  pose proof (Hres (S (length fs1)) (Nat.lt_succ_diag_r _))
    as (_ & Hu & Hpu & _)%resolve_Ok.
  assert (stat fs1 (source plan) = Some File) as Hs1.
  { apply (grows_stat fs); [done|]. apply Hsrc. by left. }
  assert (shutil_move (source plan) u fs1
          = Ok () (relocate (source plan) u fs1)) as Hmv.
  { apply shutil_move_file; [done..|]. by rewrite Hpu. }
  destruct (apply_step_relocates d plan fs fs1 u _ Hplan Hens Hu Hpu Hmv)
    as (_ & Hls & Hlu & Hstat).
  destruct (IH (n + 1)
    (<[category plan := default 0 (m !! category plan) + 1]> m) out
    (relocate (source plan) u fs1) Hnd) as [F HF].
  - unfold is_dir. rewrite Hstat; [by apply (grows_is_dir fs)|lia|].
    intros Heq. rewrite <-Heq in Hls. lia.
  - intros plan' Hin.
    rewrite Forall_forall in Hrest.
    destruct (Hrest plan' Hin) as (Hne' & Hpar' & _).
    rewrite Hstat.
    + apply (grows_stat fs); [done|]. apply Hsrc. by right.
    + by rewrite (child_length d).
    + intros Heq. apply Hfresh. rewrite <-Heq. by apply list_elem_of_fmap_2.
  - intros plan' Hin.
    rewrite Forall_forall in Hrest.
    destruct (Hrest plan' Hin) as (_ & _ & c' & Hc').
    assert (stat fs1 (parent (destination plan')) ≠ Some File) as Hnf.
    { apply (grows_not_file fs); [done|]. apply Hcat. by right. }
    rewrite Hstat; [done| |congruence].
    rewrite Hc'. unfold joinpath. rewrite length_app. simpl. lia.
  - exists (max (S (length fs1)) F). intros fuel Hfuel.
    destruct (HF fuel) as (r & fs' & Hrun); [lia|].
    exists r, fs'. by rewrite apply_loop_cons, Hens, Hres, Hmv by lia.
Qed.

(** X13: on a directory where no path is listed twice and no file is
    named as a category some item needs, the live run of the built plan
    returns, having moved every planned file: [moved_count] is the number
    of plan items. *)
Theorem live_run_returns fs d include_hidden plans :
  build_move_plan_for_directory fs d include_hidden = inr plans →
  NoDup fs.*1 →
  (∀ plan, plan ∈ plans → stat fs (d </> category plan) ≠ Some File) →
  ∃ F, ∀ fuel, F ≤ fuel →
    ∃ per_category out fs',
      apply_move_plan fuel plans false fs
      = Ok ((length plans, per_category), out) fs'.
Proof.
  intros Hbuild Hnd Hcat. pose proof Hbuild as [Hd _]%build_inr.
  destruct (build_plan_shaped _ _ _ _ Hbuild) as [Hshaped _].
  pose proof Hbuild as Hlist%build_plan_list.
  destruct (apply_loop_live_returns d plans 0 ∅ [] fs Hshaped) as [F HF];
    [|done|..].
  - rewrite Hlist, <-list_fmap_compose.
    rewrite (list_fmap_ext _ id) by done. rewrite list_fmap_id.
    apply NoDup_filter. unfold iterdir. by apply NoDup_filter.
  - intros plan Hin. rewrite Hlist in Hin.
    apply list_elem_of_fmap in Hin as (child & -> & Hin).
    apply list_elem_of_filter in Hin as [Hinc Hin]. simpl.
    apply iterdir_child in Hin as (_ & _ & Hex).
    unfold is_included, is_dir in Hinc. unfold path_exists in Hex.
    by destruct (stat fs child) as [[]|].
  - intros plan Hin. rewrite Forall_forall in Hshaped.
    pose proof Hin as Hin'. rewrite Hlist in Hin'.
    apply list_elem_of_fmap in Hin' as (child & -> & _). simpl.
    rewrite parent_joinpath. by apply (Hcat _ Hin).
  - exists F. intros fuel Hfuel.
    destruct (HF fuel Hfuel) as ([[n m] out] & fs' & Hrun).
    pose proof (apply_loop_live_counts _ _ _ _ _ _ _ _ _ _ Hrun)
      as [_ ->]; [by rewrite total_empty|].
    by exists m, out, fs'.
Qed.

Lemma live_run_returns_witness :
  ∃ F, ∀ fuel, F ≤ fuel →
    ∃ per_category out fs',
      apply_move_plan fuel sample_plans false sample_fs
      = Ok ((length sample_plans, per_category), out) fs'.
Proof.
  apply (live_run_returns sample_fs downloads false sample_plans).
  - vm_compute. reflexivity.
  - apply (bool_decide_unpack _). vm_compute. reflexivity.
  - intros plan Hin.
    assert (Forall (λ plan, stat sample_fs (downloads </> category plan)
                            ≠ Some File) sample_plans) as Hall.
    { apply (bool_decide_unpack _). vm_compute. reflexivity. }
    rewrite Forall_forall in Hall. by apply Hall.
Defined.
End live_success_facts.

Section placement_facts.
Implicit Types fs : filesystem.
Implicit Types d src dst q : path.

Lemma ensure_directory_child_cases d c fs fs' :
  is_dir fs d = true →
  ensure_directory (d </> c) fs = Ok () fs' →
  fs' = fs ∨ (stat fs (d </> c) = None ∧ fs' = fs ++ [(d </> c, Dir)]).
Proof.
  intros Hd. unfold ensure_directory, path_exists.
  destruct (stat fs (d </> c)) eqn:Hs; simpl.
  { intros [= <-]. by left. }
  assert (os_mkdir (d </> c) fs = Ok () (fs ++ [(d </> c, Dir)])) as Hmk.
  { unfold os_mkdir, path_exists. rewrite Hs, parent_joinpath, Hd. simpl.
    unfold is_dir in Hd. by destruct (stat fs d) as [[]|]. }
  unfold Path_mkdir.
  destruct (length (d </> c)); simpl; rewrite Hmk; intros [= <-]; by right.
Qed.

Lemma prefix_parent src q :
  src `prefix_of` q → length q = S (length src) → parent q = src.
Proof.
  intros [rest ->] Hlen. rewrite length_app in Hlen.
  destruct rest as [|x [|y rest]]; simpl in Hlen; [lia| |lia].
  apply parent_joinpath.
Qed.

(** The renamed entry is found at its new path, with its kind. *)
Lemma stat_relocate_dst src dst fs :
  path_exists fs dst = false → src ≠ dst →
  stat (relocate src dst fs) dst = stat fs src.
Proof.
  intros Hd Hne. unfold relocate. rewrite bool_decide_eq_false_2 by done.
  rewrite filter_absent by done.
  assert (dst ∉ fs.*1) as Hnot.
  { intros Hin%path_exists_elem. congruence. }
  clear Hd. induction fs as [|[p k] fs IH]; [done|]. csimpl in *.
  apply not_elem_of_cons in Hnot as [Hpd Hnot].
  case_bool_decide as Hp; csimpl.
  - destruct Hp as [rest ->]. rewrite drop_app_length.
    destruct rest as [|x rest].
    + rewrite !app_nil_r. by rewrite !bool_decide_eq_true_2.
    + rewrite !bool_decide_eq_false_2; [by apply IH| |].
      * intros Heq. apply (f_equal length) in Heq.
        rewrite length_app in Heq. simpl in Heq. lia.
      * intros Heq. apply (f_equal length) in Heq.
        rewrite length_app in Heq. simpl in Heq. lia.
  - rewrite !bool_decide_eq_false_2; [by apply IH| |done].
    intros ->. by destruct Hp.
Qed.

(** Nothing is left at the old path. *)
Lemma stat_relocate_src src dst fs :
  path_exists fs dst = false → ¬ dst `prefix_of` src →
  stat (relocate src dst fs) src = None.
Proof.
  intros Hd Hpre. unfold relocate.
  rewrite bool_decide_eq_false_2 by (by intros ->).
  rewrite filter_absent by done. clear Hd.
  induction fs as [|[p k] fs IH]; [done|]. csimpl.
  case_bool_decide as Hp; csimpl.
  - rewrite bool_decide_eq_false_2; [done|].
    intros Heq. apply Hpre. rewrite <-Heq. by apply prefix_app_r.
  - rewrite bool_decide_eq_false_2; [done|]. intros ->. by destruct Hp.
Qed.

Lemma stat_lookup fs q k : stat fs q = Some k → ∃ i, fs !! i = Some (q, k).
Proof.
  induction fs as [|[p k'] fs IH]; simpl; [done|].
  case_bool_decide as Hp.
  - intros [= ->]. subst p. by exists 0.
  - intros [i Hi]%IH. by exists (S i).
Qed.

Lemma grows_lookup fs fs' i e : grows fs fs' → fs !! i = Some e → fs' !! i = Some e.
Proof. intros (extra & -> & _) Hi. by apply lookup_app_l_Some. Qed.

(** A rename onto a path that does not exist rewrites the entries in
    place: the entry listed at a position is still listed there, under
    its new path if it lay at or below the renamed one. *)
Lemma relocate_lookup src dst fs i q k :
  path_exists fs dst = false → src ≠ dst →
  fs !! i = Some (q, k) →
  relocate src dst fs !! i
  = Some (if bool_decide (src `prefix_of` q)
          then dst ++ drop (length src) q else q, k).
Proof.
  intros Hd Hne Hi. unfold relocate. case_bool_decide; [done|].
  rewrite filter_absent by done. clear Hd.
  revert i Hi. induction fs as [|e fs IH]; intros [|i] Hi; try done.
  - simpl in Hi. injection Hi as ->. csimpl. by case_bool_decide.
  - csimpl. by apply IH.
Qed.

(** What a live run that returns keeps in place around the directory
    [d]: missing children that are no category directory stay missing,
    subdirectories stay, and files inside subdirectories stay, each at
    its position in the listing. *)
Lemma apply_loop_stable d fuel plans moved_count per_category out fs r fs' :
  Forall (shaped d) plans → NoDup (source <$> plans) →
  is_dir fs d = true →
  (∀ plan, plan ∈ plans → stat fs (source plan) = Some File) →
  apply_loop fuel false plans moved_count per_category out fs = Ok r fs' →
  (∀ q, length q = S (length d) → stat fs q = None →
        (∀ plan, plan ∈ plans → parent (destination plan) ≠ q) →
        stat fs' q = None) ∧
  (∀ q, length q ≤ S (length d) → is_dir fs q = true → is_dir fs' q = true) ∧
  (∀ q, length q = S (S (length d)) → is_dir fs (parent q) = true →
        stat fs q = Some File → stat fs' q = Some File) ∧
  (∀ i q, length q = S (S (length d)) → is_dir fs (parent q) = true →
          fs !! i = Some (q, File) → fs' !! i = Some (q, File)).
Proof.
  intros Hshaped. revert moved_count per_category out fs.
  induction Hshaped as [|plan rest Hplan Hrest IH];
    intros n m out fs Hnd Hd Hsrc.
  { simpl. by intros [= <- <-]. }
  rewrite fmap_cons in Hnd. apply NoDup_cons in Hnd as [Hfresh Hnd].
  rewrite apply_loop_cons.
  destruct (ensure_directory _ fs) as [[] fs1| |] eqn:Hens; [|done..].
  destruct (resolve _ _ fs1) as [u fs2| |] eqn:Hres; [|done..].
  apply resolve_Ok in Hres as (-> & Hu & Hpu & _).
  destruct (shutil_move _ _ fs1) as [[] fs3| |] eqn:Hmv; [|done..].
  destruct (apply_step_relocates d plan fs fs1 u fs3)
    as (-> & Hls & Hlu & Hstat); [done..|].
  pose proof Hens as [_ Hg]%ensure_directory_Ok.
  pose proof Hplan as (Hne & Hpar & c & Hc).
  assert (stat fs1 (source plan) = Some File) as Hs1.
  { apply (grows_stat fs); [done|]. apply Hsrc. by left. }
  assert (is_dir (relocate (source plan) u fs1) d = true) as Hd3.
  { unfold is_dir. rewrite Hstat; [by apply (grows_is_dir fs)|lia|].
    intros Heq. rewrite <-Heq in Hls. lia. }
  assert (∀ plan', plan' ∈ rest →
            stat (relocate (source plan) u fs1) (source plan') = Some File)
    as Hsrc3.
  { intros plan' Hin. rewrite Forall_forall in Hrest.
    destruct (Hrest plan' Hin) as (Hne' & Hpar' & _).
    rewrite Hstat.
    - apply (grows_stat fs); [done|]. apply Hsrc. by right.
    - by rewrite (child_length d).
    - intros Heq. apply Hfresh. rewrite <-Heq. by apply list_elem_of_fmap_2. }
  intros Hrun.
  destruct (IH _ _ _ _ Hnd Hd3 Hsrc3 Hrun)
    as (Hmissing & Hdirs & Hfiles & Hentries).
  assert (∀ q, length q = S (S (length d)) → is_dir fs (parent q) = true →
            is_dir (relocate (source plan) u fs1) (parent q) = true
            ∧ ¬ source plan `prefix_of` q) as Hparent.
  { intros q Hlq Hpq. apply (grows_is_dir fs fs1) in Hpq; [|done]. split.
    - unfold is_dir in *. rewrite Hstat; [done|..].
      + assert (q ≠ []) as Hqne by (intros ->; simpl in Hlq; lia).
        pose proof (child_length (parent q) q Hqne eq_refl). lia.
      + intros Heq. by rewrite Heq, Hs1 in Hpq.
    - intros Hpre. apply prefix_parent in Hpre; [|lia].
      unfold is_dir in Hpq. by rewrite Hpre, Hs1 in Hpq. }
  split_and!.
  4:{ intros i q Hlq Hpq Hi. destruct (Hparent q Hlq Hpq) as [Hpq3 Hnpre].
      apply Hentries; [done..|].
      rewrite (relocate_lookup _ _ _ i q File); [|done| |by eapply grows_lookup].
      - by rewrite bool_decide_eq_false_2.
      - intros Heq. rewrite <-Heq in Hlu. lia. }
  - intros q Hlq Hq Hnocat. apply Hmissing; [done| |].
    + rewrite Hstat; [|lia|].
      2:{ intros ->. rewrite (Hsrc plan) in Hq; [done|by left]. }
      rewrite Hc in Hens.
      destruct (ensure_directory_child_cases d c fs fs1 Hd Hens)
        as [->|[_ ->]]; [done|].
      rewrite stat_app, Hq. simpl. rewrite bool_decide_eq_false_2; [done|].
      rewrite <-Hc. apply Hnocat. by left.
    + intros plan' Hin. apply Hnocat. by right.
  - intros q Hlq Hq. apply Hdirs; [done|].
    apply (grows_is_dir fs fs1) in Hq; [|done].
    unfold is_dir in *. rewrite Hstat; [done..|].
    intros ->. by rewrite Hs1 in Hq.
  - intros q Hlq Hpq Hq.
    apply (grows_is_dir fs fs1) in Hpq; [|done].
    apply (grows_stat fs fs1) in Hq; [|done].
    apply Hfiles; [done|..].
    + unfold is_dir in *. rewrite Hstat; [done|..].
      * assert (q ≠ []) as Hqne by (intros ->; simpl in Hlq; lia).
        pose proof (child_length (parent q) q Hqne eq_refl). lia.
      * intros Heq. by rewrite Heq, Hs1 in Hpq.
    + rewrite stat_relocate_other; [done..| |].
      * intros Hpre. apply prefix_parent in Hpre; [|lia].
        unfold is_dir in Hpq. by rewrite Hpre, Hs1 in Hpq.
      * intros Hpre. apply prefix_same_length in Hpre; [|lia].
        subst q. unfold path_exists in Hu. by rewrite Hq in Hu.
Qed.
End placement_facts.

Section placement_theorem.
Implicit Types fs : filesystem.
Implicit Types d : path.

Lemma build_plan_ready fs d include_hidden plans :
  build_move_plan_for_directory fs d include_hidden = inr plans →
  NoDup fs.*1 →
  (∀ plan, plan ∈ plans → stat fs (d </> category plan) ≠ Some File) →
  NoDup (source <$> plans) ∧
  (∀ plan, plan ∈ plans → stat fs (source plan) = Some File) ∧
  (∀ plan, plan ∈ plans → stat fs (parent (destination plan)) ≠ Some File).
Proof.
  intros Hlist%build_plan_list Hnd Hcat. split_and!.
  - rewrite Hlist, <-list_fmap_compose.
    rewrite (list_fmap_ext _ id) by done. rewrite list_fmap_id.
    apply NoDup_filter. unfold iterdir. by apply NoDup_filter.
  - intros plan Hin. rewrite Hlist in Hin.
    apply list_elem_of_fmap in Hin as (child & -> & Hin).
    apply list_elem_of_filter in Hin as [Hinc Hin]. simpl.
    apply iterdir_child in Hin as (_ & _ & Hex).
    unfold is_included, is_dir in Hinc. unfold path_exists in Hex.
    by destruct (stat fs child) as [[]|].
  - intros plan Hin. pose proof Hin as Hin'. rewrite Hlist in Hin'.
    apply list_elem_of_fmap in Hin' as (child & -> & _). simpl.
    rewrite parent_joinpath. by apply (Hcat _ Hin).
Qed.

Lemma apply_loop_places d fuel plans moved_count per_category out fs r fs' :
  Forall (shaped d) plans → NoDup (source <$> plans) →
  is_dir fs d = true →
  (∀ plan, plan ∈ plans → stat fs (source plan) = Some File) →
  (∀ plan, plan ∈ plans →
     stat fs (parent (destination plan)) ≠ Some File) →
  apply_loop fuel false plans moved_count per_category out fs = Ok r fs' →
  ∀ plan, plan ∈ plans →
    stat fs' (source plan) = None ∧
    is_dir fs' (parent (destination plan)) = true ∧
    ∃ u, (u = destination plan ∨ ∃ k, u = candidate (destination plan) k) ∧
         stat fs' u = Some File ∧
         ∀ i, fs !! i = Some (source plan, File) →
              fs' !! i = Some (u, File).
Proof.
  intros Hshaped. revert moved_count per_category out fs.
  induction Hshaped as [|plan rest Hplan Hrest IH];
    intros n m out fs Hnd Hd Hsrc Hcat.
  { intros _ plan Hin. by apply elem_of_nil in Hin. }
  pose proof Hnd as Hnd0.
  rewrite fmap_cons in Hnd. apply NoDup_cons in Hnd as [Hfresh Hnd].
  pose proof Hplan as (Hne & Hpar & c & Hc).
  destruct (ensure_directory_child_dir d c fs Hd) as (fs1 & Hens & Hg & Hdc).
  { rewrite <-Hc. apply Hcat. by left. }
  rewrite <-Hc in Hens, Hdc.
  rewrite apply_loop_cons, Hens.
  destruct (resolve _ _ fs1) as [u fs2| |] eqn:Hres; [|done..].
  apply resolve_Ok in Hres as (-> & Hu & Hpu & Hform).
  destruct (shutil_move _ _ fs1) as [[] fs3| |] eqn:Hmv; [|done..].
  destruct (apply_step_relocates d plan fs fs1 u fs3)
    as (-> & Hls & Hlu & Hstat); [done..|].
  assert (source plan ≠ u) as Hsu.
  { intros Heq. rewrite <-Heq in Hlu. lia. }
  assert (stat fs1 (source plan) = Some File) as Hs1.
  { apply (grows_stat fs); [done|]. apply Hsrc. by left. }
  assert (is_dir (relocate (source plan) u fs1) d = true) as Hd3.
  { unfold is_dir. rewrite Hstat; [by apply (grows_is_dir fs)|lia|].
    intros Heq. rewrite <-Heq in Hls. lia. }
  assert (∀ plan', plan' ∈ rest →
            source plan' ≠ source plan
            ∧ length (source plan') = S (length d)) as Hother.
  { intros plan' Hin. rewrite Forall_forall in Hrest.
    destruct (Hrest plan' Hin) as (Hne' & Hpar' & _). split.
    - intros Heq. apply Hfresh. rewrite <-Heq. by apply list_elem_of_fmap_2.
    - by apply child_length. }
  assert (∀ plan', plan' ∈ rest →
            stat (relocate (source plan) u fs1) (source plan') = Some File)
    as Hsrc3.
  { intros plan' Hin. destruct (Hother plan' Hin) as [Hneq Hlen].
    rewrite Hstat; [|lia|done].
    apply (grows_stat fs); [done|]. apply Hsrc. by right. }
  assert (∀ plan', plan' ∈ rest →
            stat fs1 (parent (destination plan')) ≠ Some File) as Hcat1.
  { intros plan' Hin. apply (grows_not_file fs); [done|]. apply Hcat.
    by right. }
  assert (∀ plan', plan' ∈ rest →
            stat (relocate (source plan) u fs1) (parent (destination plan'))
            ≠ Some File) as Hcat3.
  { intros plan' Hin. rewrite Forall_forall in Hrest.
    destruct (Hrest plan' Hin) as (_ & _ & c' & Hc').
    pose proof (Hcat1 plan' Hin) as Hnf.
    rewrite Hstat; [done| |congruence].
    rewrite Hc'. unfold joinpath. rewrite length_app. simpl. lia. }
  intros Hrun plan' [->|Hin]%elem_of_cons.
  2:{ destruct (IH _ _ _ _ Hnd Hd3 Hsrc3 Hcat3 Hrun plan' Hin)
        as (Hgone & Hdir & u' & Hform' & Hu' & Htrack).
      split_and!; [done..|]. exists u'. split_and!; [done..|].
      intros i Hi. apply Htrack.
      destruct (Hother plan' Hin) as [Hneq Hlen].
      rewrite (relocate_lookup _ _ _ i (source plan') File);
        [|done..|by eapply grows_lookup].
      rewrite bool_decide_eq_false_2; [done|].
      intros Hpre. apply Hneq. symmetry.
      apply prefix_same_length; [done|lia]. }
  destruct (apply_loop_stable d _ _ _ _ _ _ _ _ Hrest Hnd Hd3 Hsrc3 Hrun)
    as (Hmissing & Hdirs & Hfiles & Hentries).
  assert (is_dir (relocate (source plan) u fs1) (parent (destination plan))
          = true) as Hdc3.
  { unfold is_dir in *. rewrite Hstat; [done| |].
    - rewrite Hc. unfold joinpath. rewrite length_app. simpl. lia.
    - intros Heq. by rewrite Heq, Hs1 in Hdc. }
  split_and!.
  - apply Hmissing; [done| |].
    + apply stat_relocate_src; [done|]. intros Hpre%prefix_length. lia.
    + intros plan' Hin Heq. apply (Hcat1 plan' Hin). by rewrite Heq.
  - apply Hdirs; [|done].
    rewrite Hc. unfold joinpath. rewrite length_app. simpl. lia.
  - exists u. split_and!; [done| |].
    + apply Hfiles; [done|by rewrite Hpu|]. by rewrite stat_relocate_dst.
    + intros i Hi. apply Hentries; [done|by rewrite Hpu|].
      rewrite (relocate_lookup _ _ _ i (source plan) File);
        [|done..|by eapply grows_lookup].
      rewrite bool_decide_eq_true_2 by done.
      by rewrite drop_all, app_nil_r.
Qed.

(** X14: on a directory where no path is listed twice and no file is
    named as a category some item needs, a live run that returns has
    moved every planned file into its category directory: the entry that
    listed the file at its source path lists it, at the same position, at
    the planned destination or at a numbered candidate of it; that path
    is a file inside the category directory, which is a directory; and
    nothing is left at the source path. *)
Theorem live_run_places_files fuel fs d include_hidden plans r fs' plan :
  build_move_plan_for_directory fs d include_hidden = inr plans →
  NoDup fs.*1 →
  (∀ plan, plan ∈ plans → stat fs (d </> category plan) ≠ Some File) →
  apply_move_plan fuel plans false fs = Ok r fs' →
  plan ∈ plans →
  path_exists fs' (source plan) = false ∧
  is_dir fs' (d </> category plan) = true ∧
  ∃ u i,
    (u = destination plan ∨ ∃ k, u = candidate (destination plan) k) ∧
    parent u = d </> category plan ∧
    stat fs' u = Some File ∧
    fs !! i = Some (source plan, File) ∧
    fs' !! i = Some (u, File).
Proof.
  intros Hbuild Hnd Hcat Hrun Hin.
  pose proof Hbuild as [Hd _]%build_inr.
  destruct (build_plan_shaped _ _ _ _ Hbuild) as [Hshaped _].
  destruct (build_plan_ready _ _ _ _ Hbuild Hnd Hcat) as (Hnds & Hsrc & Hcat').
  destruct (apply_loop_places d fuel plans 0 ∅ [] fs r fs'
              Hshaped Hnds Hd Hsrc Hcat' Hrun plan Hin)
    as (Hgone & Hdir & u & Hform & Hu & Htrack).
  assert (parent (destination plan) = d </> category plan) as Hpd.
  { apply build_plan_list in Hbuild. subst plans.
    apply list_elem_of_fmap in Hin as (child & -> & _). simpl.
    apply parent_joinpath. }
  destruct (stat_lookup fs (source plan) File (Hsrc plan Hin)) as [i Hi].
  rewrite Hpd in Hdir. split_and!; [|done|].
  - unfold path_exists. by rewrite Hgone.
  - exists u, i. split_and!; [done| |done..|by apply Htrack].
    destruct Hform as [->|[k ->]]; [done|].
    unfold candidate. by rewrite parent_joinpath.
Qed.

Lemma live_run_places_files_witness :
  path_exists collision_fs_organized (downloads </> "report.pdf") = false ∧
  is_dir collision_fs_organized (downloads </> "Documentos") = true ∧
  ∃ u i,
    (u = downloads </> "Documentos" </> "report.pdf"
     ∨ ∃ k, u = candidate (downloads </> "Documentos" </> "report.pdf") k) ∧
    parent u = downloads </> "Documentos" ∧
    stat collision_fs_organized u = Some File ∧
    collision_fs !! i = Some (downloads </> "report.pdf", File) ∧
    collision_fs_organized !! i = Some (u, File).
Proof.
  apply (live_run_places_files 1 collision_fs downloads false
           [plan_child downloads (downloads </> "report.pdf")]
           ((1, {[ "Documentos" := 1 ]}), []) collision_fs_organized
           (plan_child downloads (downloads </> "report.pdf"))).
  - vm_compute. reflexivity.
  - apply (bool_decide_unpack _). vm_compute. reflexivity.
  - intros plan ->%list_elem_of_singleton. vm_compute. discriminate.
  - vm_compute. reflexivity.
  - apply list_elem_of_singleton. reflexivity.
Defined.

(** In that run the file that was [Downloads/report.pdf] is the one now
    listed as [Documentos/report (1).pdf]; the [report.pdf] that was in
    [Documentos] is still there. *)
Example live_run_collision_positions :
  collision_fs !! 5 = Some (downloads </> "report.pdf", File) ∧
  collision_fs_organized !! 5 = Some (documents </> "report (1).pdf", File) ∧
  collision_fs_organized !! 4 = Some (documents </> "report.pdf", File).
Proof. by vm_compute. Qed.
End placement_theorem.

(** ** Further properties: what a dry run shows and leaves behind *)

Section dry_run_facts.
Implicit Types fs : filesystem.
Implicit Types d : path.

Lemma apply_loop_dry_lines fuel plans moved_count per_category out fs c out'
    fs' :
  apply_loop fuel true plans moved_count per_category out fs
  = Ok (c, out') fs' →
  ∃ new, out' = out ++ new ∧
         line_source <$> new = (λ plan, name (source plan)) <$> plans ∧
         line_directory <$> new
         = (λ plan, name (parent (destination plan))) <$> plans.
Proof.
  revert out fs. induction plans as [|plan rest IH]; intros out fs.
  { simpl. intros [= <- <- <-]. exists []. by rewrite app_nil_r. }
  rewrite apply_loop_cons.
  destruct (ensure_directory _ fs) as [[] fs1| |]; [|done..].
  destruct (resolve _ _ fs1) as [u fs2| |]; [|done..].
  intros (new & -> & Hsrc & Hdir)%IH. eexists (_ :: new).
  rewrite <-app_assoc. split_and!; [done|..]; csimpl; by f_equal.
Qed.

Lemma apply_loop_dry_adds d fuel plans moved_count per_category out fs r fs' :
  is_dir fs d = true →
  Forall (λ plan, ∃ c, parent (destination plan) = d </> c) plans →
  apply_loop fuel true plans moved_count per_category out fs = Ok r fs' →
  ∃ extra,
    fs' = fs ++ extra ∧
    Forall (λ e : path * kind,
              ∃ plan, plan ∈ plans ∧ e = (parent (destination plan), Dir)
                      ∧ stat fs (parent (destination plan)) = None) extra ∧
    ∀ plan, plan ∈ plans →
      path_exists fs' (parent (destination plan)) = true.
Proof.
  intros Hd Hplans. revert out fs Hd.
  induction Hplans as [|plan rest [c Hc] _ IH]; intros out fs Hd.
  { simpl. intros [= <- <-]. exists []. rewrite app_nil_r.
    split_and!; [done..|]. intros plan Hin. by apply elem_of_nil in Hin. }
  rewrite apply_loop_cons.
  destruct (ensure_directory _ fs) as [[] fs1| |] eqn:Hens; [|done..].
  destruct (resolve _ _ fs1) as [u fs2| |] eqn:Hres; [|done..].
  apply resolve_Ok in Hres as (-> & _).
  pose proof Hens as [Hpe Hg]%ensure_directory_Ok.
  intros (extra & -> & Hextra & Hall)%IH; [|by apply (grows_is_dir fs)].
  rewrite Hc in Hens.
  assert (∀ plan', plan' ∈ plan :: rest →
            path_exists (fs1 ++ extra) (parent (destination plan')) = true)
    as Hall'.
  { intros plan' [->|Hin]%elem_of_cons; [|by apply Hall].
    unfold path_exists in *. rewrite stat_app.
    by destruct (stat fs1 (parent (destination plan))). }
  destruct (ensure_directory_child_cases d c fs fs1 Hd Hens)
    as [->|[Hnew ->]].
  - exists extra. split_and!; [done| |done].
    eapply Forall_impl; [done|]. intros e (plan' & Hin & -> & Hs).
    exists plan'. split_and!; [by right|done..].
  - exists ((d </> c, Dir) :: extra). rewrite <-app_assoc.
    split_and!; [done| |by rewrite <-app_assoc in Hall'].
    constructor.
    + exists plan. rewrite Hc. split_and!; [by left|done..].
    + eapply Forall_impl; [done|]. intros e (plan' & Hin & -> & Hs).
      exists plan'. split_and!; [by right|done|].
      rewrite stat_app in Hs.
      by destruct (stat fs (parent (destination plan'))).
Qed.

(** X15: in dry-run mode, [apply_move_plan] on a plan built for a
    directory returns, with zero counters, and the lines it has printed
    are one per plan item, in plan order, each naming the source file and
    the item's category as the directory. *)
Theorem apply_move_plan_dry_run_lines fs d include_hidden plans :
  build_move_plan_for_directory fs d include_hidden = inr plans →
  ∃ F, ∀ fuel, F ≤ fuel →
    ∃ out fs',
      apply_move_plan fuel plans true fs = Ok ((0, ∅), out) fs' ∧
      line_source <$> out = (λ plan, name (source plan)) <$> plans ∧
      line_directory <$> out = category <$> plans.
Proof.
  intros Hbuild. pose proof Hbuild as [Hd Hplans]%build_inr.
  destruct (apply_loop_dry_run_returns d plans 0 ∅ [] fs Hd) as [F HF].
  { rewrite Hplans. apply plan_children_parent. }
  exists F. intros fuel Hfuel.
  destruct (HF fuel Hfuel) as (out & fs' & Hrun & _).
  exists out, fs'. unfold apply_move_plan. split; [done|].
  apply apply_loop_dry_lines in Hrun as (new & -> & Hsrc & Hdir).
  simpl. split; [done|]. rewrite Hdir.
  apply build_plan_list in Hbuild. subst plans.
  rewrite <-!list_fmap_compose. apply list_fmap_ext. intros _ child _.
  simpl. by rewrite parent_joinpath, name_joinpath.
Qed.

Lemma apply_move_plan_dry_run_lines_witness :
  ∃ F, ∀ fuel, F ≤ fuel →
    ∃ out fs',
      apply_move_plan fuel sample_plans true sample_fs
      = Ok ((0, ∅), out) fs' ∧
      line_source <$> out = (λ plan, name (source plan)) <$> sample_plans ∧
      line_directory <$> out = category <$> sample_plans.
Proof.
  apply (apply_move_plan_dry_run_lines sample_fs downloads false sample_plans).
  vm_compute. reflexivity.
Defined.

(** X16: what the dry run of [main] does to the file system: it appends
    directories and nothing else, each of them the category directory of
    some plan item that was missing, and afterwards the category
    directory of every plan item exists. *)
Theorem main_dry_run_adds_only_category_directories fuel fs d include_hidden
    plans r fs' :
  build_move_plan_for_directory fs d include_hidden = inr plans →
  main fuel d true include_hidden fs = Ok r fs' →
  ∃ extra,
    fs' = fs ++ extra ∧
    Forall (λ e : path * kind,
              ∃ plan, plan ∈ plans ∧ e = (d </> category plan, Dir)
                      ∧ stat fs (d </> category plan) = None) extra ∧
    ∀ plan, plan ∈ plans → path_exists fs' (d </> category plan) = true.
Proof.
  intros Hbuild. unfold main, apply_move_plan. rewrite Hbuild. intros Hrun.
  pose proof Hbuild as [Hd Hplans]%build_inr.
  assert (∀ plan, plan ∈ plans →
            parent (destination plan) = d </> category plan) as Hpd.
  { intros plan Hin. apply build_plan_list in Hbuild. subst plans.
    apply list_elem_of_fmap in Hin as (child & -> & _). simpl.
    apply parent_joinpath. }
  apply (apply_loop_dry_adds d) in Hrun as (extra & -> & Hextra & Hall);
    [|done|rewrite Hplans; apply plan_children_parent].
  exists extra. split_and!; [done| |].
  - eapply Forall_impl; [done|]. intros e (plan & Hin & -> & Hs).
    exists plan. by rewrite <-(Hpd plan Hin).
  - intros plan Hin. rewrite <-(Hpd plan Hin). by apply Hall.
Qed.

Lemma main_dry_run_adds_only_category_directories_witness :
  ∃ extra,
    sample_fs ++ [(downloads </> "Imagenes", Dir);
                  (downloads </> "Documentos", Dir);
                  (downloads </> "Comprimidos", Dir);
                  (downloads </> "Codigo", Dir);
                  (downloads </> "Otros", Dir)]
    = sample_fs ++ extra ∧
    Forall (λ e : path * kind,
              ∃ plan, plan ∈ sample_plans
                      ∧ e = (downloads </> category plan, Dir)
                      ∧ stat sample_fs (downloads </> category plan) = None)
      extra ∧
    ∀ plan, plan ∈ sample_plans →
      path_exists
        (sample_fs ++ [(downloads </> "Imagenes", Dir);
                       (downloads </> "Documentos", Dir);
                       (downloads </> "Comprimidos", Dir);
                       (downloads </> "Codigo", Dir);
                       (downloads </> "Otros", Dir)])
        (downloads </> category plan) = true.
Proof.
  apply (main_dry_run_adds_only_category_directories 1 sample_fs downloads
           false sample_plans
           ((0, ∅),
            [ DryRunLine "photo.png" "Imagenes" "photo.png";
              DryRunLine "notes.txt" "Documentos" "notes.txt";
              DryRunLine "archive.tar.gz" "Comprimidos" "archive.tar.gz";
              DryRunLine "script.py" "Codigo" "script.py";
              DryRunLine "unknownfile.xyz" "Otros" "unknownfile.xyz" ])).
  - vm_compute. reflexivity.
  - vm_compute. reflexivity.
Defined.
End dry_run_facts.
